(** * DMC3 model decoder: a shallow embedding of [DMC3/model.py]

    The decoder of [DMC3/model.py] walks a binary file with a seekable cursor
    and fills Python objects ([Model], [Object], [Mesh], [Skeleton], [Bone]).
    Here the file is a list of bytes, the cursor an integer that is threaded
    through a small reader/error monad, and every class is a record.  A Python
    exception is an [Error]; nothing catches exceptions in the decoder, so an
    error ends the whole decode. *)

From stdpp Require Import base numbers list strings.
From Stdlib Require Import Strings.Byte.

Local Open Scope Z_scope.

(** ** Files, errors and the decoding monad *)

Definition File := list byte.

(** [OutOfBounds], [MalformedHeader], [CyclicHierarchy] and
    [InvalidParentIndex] are the names of the specification's error taxonomy;
    [SeekError] is what Python's [f.seek] raises on a negative target,
    [IndexError] what list indexing raises, [NameError] what reading the
    module-global [model] raises before [Import] has assigned it. *)
Inductive Error :=
  | OutOfBounds
  | SeekError
  | IndexError
  | NameError
  | MalformedHeader
  | CyclicHierarchy
  | InvalidParentIndex.

(** A computation reads the (immutable) file and the cursor, and returns
    either an error or a value with the new cursor. *)
Definition M (A : Type) : Type := File -> Z -> Error + (A * Z).

Definition ret {A} (a : A) : M A := fun _ pos => inr (a, pos).

Definition raise {A} (e : Error) : M A := fun _ _ => inl e.

Definition bind {A B} (m : M A) (k : A -> M B) : M B :=
  fun f pos =>
    match m f pos with
    | inl e => inl e
    | inr (a, pos') => k a f pos'
    end.

Notation "'let!' x ':=' c 'in' k" := (bind c (fun x => k))
  (at level 10, x name, c at level 100, k at level 200).

(** [for i in range(n): s = body(i, s)], counting from [i]. *)
Fixpoint for_loop {S} (body : Z -> S -> M S) (i : Z) (n : nat) (s : S) : M S :=
  match n with
  | O => ret s
  | Datatypes.S n' => let! s' := body i s in for_loop body (i + 1) n' s'
  end.

(** [range(n)] of a Python integer is empty when [n] is negative. *)
Definition for_range {S} (n : Z) (body : Z -> S -> M S) (s : S) : M S :=
  for_loop body 0 (Z.to_nat n) s.

(** [[e(i) for i in range(n)]], counting from [i]. *)
Fixpoint comprehension {A} (e : Z -> M A) (i : Z) (n : nat) : M (list A) :=
  match n with
  | O => ret []
  | Datatypes.S n' =>
      let! x := e i in
      let! xs := comprehension e (i + 1) n' in
      ret (x :: xs)
  end.

Definition list_comp {A} (n : Z) (e : Z -> M A) : M (list A) :=
  comprehension e 0 (Z.to_nat n).

(** ** The cursor: Python's [f.tell] and [f.seek] *)

Definition tell : M Z := fun _ pos => inr (pos, pos).

(** [f.seek(target)]: a negative target raises, a target past the end of the
    file is accepted (the next read fails). *)
Definition seek (target : Z) : M unit :=
  fun _ _ => if target <? 0 then inl SeekError else inr (tt, target).

(** [f.seek(delta, os.SEEK_CUR)]. *)
Definition seek_cur (delta : Z) : M unit :=
  fun _ pos => if pos + delta <? 0 then inl SeekError else inr (tt, pos + delta).

(** ** Primitive reads *)

(** The [n] bytes of the file from offset [pos] on (fewer at the end). *)
Definition slice (f : File) (pos : Z) (n : nat) : list byte :=
  take n (drop (Z.to_nat pos) f).

(** Little-endian value of a byte string. *)
Definition le_combine (bs : list byte) : Z :=
  foldr (fun b acc => Z.of_N (Byte.to_N b) + 256 * acc) 0 bs.

(** Two's complement reading of a [w]-byte unsigned value. *)
Definition signed (w : nat) (u : Z) : Z :=
  if u <? 2 ^ (8 * Z.of_nat w - 1) then u else u - 2 ^ (8 * Z.of_nat w).

(** A 4-byte IEEE-754 float is carried as its 32-bit pattern: the decoder
    stores floats and never computes with them. *)
Definition float32 := Z.

(** Modelled from the spec: [common/io.py] (the primitive reader behind
    [ReadSInt16], [ReadSInt32], [ReadSInt64], [ReadUByte], [ReadByte],
    [ReadFloat] and [ReadString]) is not part of the sources at hand.  The
    specification gives fixed-width little-endian reads, signed for the
    integers, each advancing the cursor by the width read, and [OutOfBounds]
    when a read passes the end of the buffer. *)
Definition read (n : nat) : M (list byte) :=
  fun f pos =>
    let bs := slice f pos n in
    if (length bs <? n)%nat then inl OutOfBounds
    else inr (bs, pos + Z.of_nat n).

Definition read_signed (w : nat) : M Z :=
  let! bs := read w in ret (signed w (le_combine bs)).

Definition ReadByte : M Z := read_signed 1.
Definition ReadSInt16 : M Z := read_signed 2.
Definition ReadSInt32 : M Z := read_signed 4.
Definition ReadSInt64 : M Z := read_signed 8.
Definition ReadUByte : M Z := let! bs := read 1 in ret (le_combine bs).
Definition ReadFloat : M float32 := let! bs := read 4 in ret (le_combine bs).
Definition ReadString (n : nat) : M string :=
  let! bs := read n in ret (String.string_of_list_byte bs).

(** What the reads return, as functions of the file and an offset. *)
Definition sint_at (f : File) (w : nat) (off : Z) : Z :=
  signed w (le_combine (slice f off w)).
Definition uint_at (f : File) (w : nat) (off : Z) : Z :=
  le_combine (slice f off w).
Definition float_at (f : File) (off : Z) : float32 := uint_at f 4 off.
Definition string_at (f : File) (n : nat) (off : Z) : string :=
  String.string_of_list_byte (slice f off n).

(** ** Python list indexing *)

(** [l[k]] accepts [-len <= k < len]; a negative [k] counts from the end. *)
Definition py_index (len : nat) (k : Z) : option nat :=
  if (0 <=? k) && (k <? Z.of_nat len) then Some (Z.to_nat k)
  else if (- Z.of_nat len <=? k) && (k <? 0) then Some (Z.to_nat (k + Z.of_nat len))
  else None.

Definition py_getitem {A} (l : list A) (k : Z) : M A :=
  match py_index (length l) k with
  | Some j => match l !! j with Some x => ret x | None => raise IndexError end
  | None => raise IndexError
  end.

(** ** The classes *)

Definition Vector := list float32.

(** An entry of [Mesh.positions]: the constructor fills the list with the
    class object [Vector] itself, the vertex pass later stores vectors. *)
Inductive position_slot :=
  | VectorClass
  | VectorValue (v : Vector).

Module Mesh.
(** [boneIndiciesOffs], [weightsOffs] and [uknOffs] are attributes that only
    one of the two variants assigns: [None] is "attribute not set". *)
Record t := mk {
  meshIdx : Z;
  vertCount : Z;
  texInd : Z;
  positionsOffs : Z;
  normalsOffs : Z;
  UVsOffs : Z;
  boneIndiciesOffs : option Z;
  weightsOffs : option Z;
  uknOffs : option Z;
  ukn : Z;
  positions : list position_slot;
  normals : list Vector;
  UVs : list Vector;
  boneIndicies : list (list Z);
  boneWeights : list (list float32);
  vertColour : list (list Z);
  triSkip : list (list Z);
  faces : list (list Z);
  vertGrp : list (option Z)
}.
End Mesh.

Module Object.
(** [meshes] is not assigned by the constructor (the assignment is commented
    out in the source): [None] until [ParseMeshes] has run. *)
Record t := mk {
  objectIdx : Z;
  meshCount : Z;
  ukn : Z;
  numVerts : Z;
  mshOffs : Z;
  flags : Z;
  X : float32;
  Y : float32;
  Z_ : float32;
  radius : float32;
  meshes : option (list Mesh.t)
}.
End Object.

Module Bone.
(** [parent] is [None] (Python's [None]) until the remap stores an index. *)
Record t := mk {
  position : Vector;
  idx : Z;
  parent : option Z
}.
End Bone.

Module Skeleton.
Record t := mk {
  boneCount : Z;
  hierarchyOffs : Z;
  hierarchyOrderOffs : Z;
  childIdxOffs : Z;
  transformsOffs : Z;
  bones : list Bone.t;
  hierarchy : list Z;
  hierarchyOrder : list Z;
  childIndices : list Z;
  parents : list Z
}.
End Skeleton.

Module Model.
(** [skeleton] is only annotated by the constructor: [None] until
    [ParseSkeleton] has run. *)
Record t := mk {
  Id : string;
  version : float32;
  padding : Z;
  objectCount : Z;
  boneCount : Z;
  numTex : Z;
  uknByte : Z;
  ukn : Z;
  ukn2 : Z;
  skeletonOffs : Z;
  objects : list Object.t;
  skeleton : option Skeleton.t
}.
End Model.

(** ** Mesh headers *)

(** The module-global [model] that [Import] assigns: [None] is "not yet
    assigned", and reading it then raises. *)
Definition global_model (g : option Model.t) : M Model.t :=
  match g with
  | Some m => ret m
  | None => raise NameError
  end.

(** [Mesh.__init__(self, f, meshIdx)].  The constructor has two explicit
    inputs, the file and the index, and reads the global [model] twice: for
    the tag at the layout branch and for the bone count at the end. *)
Definition Mesh_init (g : option Model.t) (meshIdx : Z) : M Mesh.t :=
  let! vertCount := ReadSInt16 in
  let! texInd := ReadSInt16 in
  let! _ := seek_cur 12 in
  let! positionsOffs := ReadSInt64 in
  let! normalsOffs := ReadSInt64 in
  let! UVsOffs := ReadSInt64 in
  let! model := global_model g in
  let! offs :=
    (if negb (String.eqb (Model.Id model) "SCM ") then
       let! boneIndiciesOffs := ReadSInt64 in
       let! weightsOffs := ReadSInt64 in
       let! _ := seek_cur 8 in
       ret (Some boneIndiciesOffs, Some weightsOffs, None)
     else
       let! _ := seek_cur 16 in
       let! uknOffs := ReadSInt64 in
       ret (None, None, Some uknOffs)) in
  let! ukn := ReadSInt64 in
  let! _ := seek_cur 8 in
  let! model := global_model g in
  ret {| Mesh.meshIdx := meshIdx;
         Mesh.vertCount := vertCount;
         Mesh.texInd := texInd;
         Mesh.positionsOffs := positionsOffs;
         Mesh.normalsOffs := normalsOffs;
         Mesh.UVsOffs := UVsOffs;
         Mesh.boneIndiciesOffs := offs.1.1;
         Mesh.weightsOffs := offs.1.2;
         Mesh.uknOffs := offs.2;
         Mesh.ukn := ukn;
         Mesh.positions := replicate (Z.to_nat vertCount) VectorClass;
         Mesh.normals := [];
         Mesh.UVs := [];
         Mesh.boneIndicies := [];
         Mesh.boneWeights := [];
         Mesh.vertColour := [];
         Mesh.triSkip := [];
         Mesh.faces := [];
         Mesh.vertGrp := replicate (Z.to_nat (Model.boneCount model)) None |}.

(** ** Objects *)

(** [Object.__init__(self, f, objectIdx)]. *)
Definition Object_init (objectIdx : Z) : M Object.t :=
  let! meshCount := ReadByte in
  let! ukn := ReadByte in
  let! numVerts := ReadSInt16 in
  let! _ := ReadSInt32 in
  let! mshOffs := ReadSInt64 in
  let! flags := ReadSInt32 in
  let! _ := seek_cur 28 in
  let! X := ReadFloat in
  let! Y := ReadFloat in
  let! Z_ := ReadFloat in
  let! radius := ReadFloat in
  ret {| Object.objectIdx := objectIdx;
         Object.meshCount := meshCount;
         Object.ukn := ukn;
         Object.numVerts := numVerts;
         Object.mshOffs := mshOffs;
         Object.flags := flags;
         Object.X := X;
         Object.Y := Y;
         Object.Z_ := Z_;
         Object.radius := radius;
         Object.meshes := None |}.

Definition set_meshes (self : Object.t) (ms : list Mesh.t) : Object.t :=
  {| Object.objectIdx := Object.objectIdx self;
     Object.meshCount := Object.meshCount self;
     Object.ukn := Object.ukn self;
     Object.numVerts := Object.numVerts self;
     Object.mshOffs := Object.mshOffs self;
     Object.flags := Object.flags self;
     Object.X := Object.X self;
     Object.Y := Object.Y self;
     Object.Z_ := Object.Z_ self;
     Object.radius := Object.radius self;
     Object.meshes := Some ms |}.

(** [Object.ParseMeshes(self)]; the [Mesh] constructor it calls reads the
    global [g]. *)
Definition Object_ParseMeshes (g : option Model.t) (self : Object.t) : M Object.t :=
  let! _ := seek (Object.mshOffs self) in
  let! meshes := list_comp (Object.meshCount self) (fun i => Mesh_init g i) in
  ret (set_meshes self meshes).

(** ** The skeleton *)

(** [l[k].attr = v] on a list of objects: [upd] is the attribute store. *)
Definition py_update {A} (l : list A) (k : Z) (upd : A -> A) : M (list A) :=
  match py_index (length l) k with
  | Some j =>
      match l !! j with
      | Some x => ret (<[j := upd x]> l)
      | None => raise IndexError
      end
  | None => raise IndexError
  end.

Definition set_parent (p : Z) (b : Bone.t) : Bone.t :=
  {| Bone.position := Bone.position b;
     Bone.idx := Bone.idx b;
     Bone.parent := Some p |}.

(** One turn of the transform loop:
    [bones.append(Bone(Vector([ReadFloat(f), ReadFloat(f), ReadFloat(f)]), i))]
    then [f.seek(0x14, os.SEEK_CUR)]. *)
Definition read_bone (i : Z) (bones : list Bone.t) : M (list Bone.t) :=
  let! x := ReadFloat in
  let! y := ReadFloat in
  let! z := ReadFloat in
  let bones := bones ++ [ {| Bone.position := [x; y; z];
                             Bone.idx := i;
                             Bone.parent := None |} ] in
  let! _ := seek_cur 0x14 in
  ret bones.

(** One turn of the remap loop:
    [bones[hierarchyOrder[i]].parent = hierarchy[i]]; Python evaluates the
    right-hand side first. *)
Definition remap_step (hierarchy hierarchyOrder : list Z)
    (i : Z) (bones : list Bone.t) : M (list Bone.t) :=
  let! p := py_getitem hierarchy i in
  let! o := py_getitem hierarchyOrder i in
  py_update bones o (set_parent p).

(** [Skeleton.__init__(self, f, boneCount)]. *)
Definition Skeleton_init (boneCount : Z) : M Skeleton.t :=
  let! base_offset := tell in
  let! hierarchyOffs := ReadSInt32 in
  let! hierarchyOrderOffs := ReadSInt32 in
  let! childIdxOffs := ReadSInt32 in
  let! transformsOffs := ReadSInt32 in
  let bones := [] in
  let! _ := seek (base_offset + hierarchyOffs) in
  let! hierarchy := list_comp boneCount (fun _ => ReadByte) in
  let! _ := seek (base_offset + hierarchyOrderOffs) in
  let! hierarchyOrder := list_comp boneCount (fun _ => ReadByte) in
  let! _ := seek (base_offset + childIdxOffs) in
  let! childIndices := list_comp boneCount (fun _ => ReadByte) in
  let! _ := seek (base_offset + transformsOffs) in
  let! bones := for_range boneCount read_bone bones in
  let! parents := list_comp boneCount (fun _ => ret (-1)) in
  let! bones := for_range boneCount (remap_step hierarchy hierarchyOrder) bones in
  ret {| Skeleton.boneCount := boneCount;
         Skeleton.hierarchyOffs := hierarchyOffs;
         Skeleton.hierarchyOrderOffs := hierarchyOrderOffs;
         Skeleton.childIdxOffs := childIdxOffs;
         Skeleton.transformsOffs := transformsOffs;
         Skeleton.bones := bones;
         Skeleton.hierarchy := hierarchy;
         Skeleton.hierarchyOrder := hierarchyOrder;
         Skeleton.childIndices := childIndices;
         Skeleton.parents := parents |}.

(** ** The model file *)

(** [Model.__init__(self, f)]. *)
Definition Model_init : M Model.t :=
  let! Id := ReadString 4 in
  let! version := ReadFloat in
  let! padding := ReadSInt64 in
  let! objectCount := ReadUByte in
  let! boneCount := ReadByte in
  let! numTex := ReadByte in
  let! uknByte := ReadByte in
  let! ukn := ReadSInt32 in
  let! ukn2 := ReadSInt64 in
  let! skeletonOffs := ReadSInt64 in
  ret {| Model.Id := Id;
         Model.version := version;
         Model.padding := padding;
         Model.objectCount := objectCount;
         Model.boneCount := boneCount;
         Model.numTex := numTex;
         Model.uknByte := uknByte;
         Model.ukn := ukn;
         Model.ukn2 := ukn2;
         Model.skeletonOffs := skeletonOffs;
         Model.objects := [];
         Model.skeleton := None |}.

Definition set_objects (self : Model.t) (objs : list Object.t) : Model.t :=
  {| Model.Id := Model.Id self;
     Model.version := Model.version self;
     Model.padding := Model.padding self;
     Model.objectCount := Model.objectCount self;
     Model.boneCount := Model.boneCount self;
     Model.numTex := Model.numTex self;
     Model.uknByte := Model.uknByte self;
     Model.ukn := Model.ukn self;
     Model.ukn2 := Model.ukn2 self;
     Model.skeletonOffs := Model.skeletonOffs self;
     Model.objects := objs;
     Model.skeleton := Model.skeleton self |}.

Definition set_skeleton (self : Model.t) (sk : Skeleton.t) : Model.t :=
  {| Model.Id := Model.Id self;
     Model.version := Model.version self;
     Model.padding := Model.padding self;
     Model.objectCount := Model.objectCount self;
     Model.boneCount := Model.boneCount self;
     Model.numTex := Model.numTex self;
     Model.uknByte := Model.uknByte self;
     Model.ukn := Model.ukn self;
     Model.ukn2 := Model.ukn2 self;
     Model.skeletonOffs := Model.skeletonOffs self;
     Model.objects := Model.objects self;
     Model.skeleton := Some sk |}.

(** [Model.ParseObjects(self)]: each new [Object] is appended to
    [self.objects]. *)
Definition Model_ParseObjects (self : Model.t) : M Model.t :=
  let! _ := seek 0x40 in
  let! objects :=
    for_range (Model.objectCount self)
      (fun i objects => let! o := Object_init i in ret (objects ++ [o]))
      (Model.objects self) in
  ret (set_objects self objects).

(** [for x in l: body(x)], each element replaced by what the body made of
    it. *)
Fixpoint for_each {A} (body : A -> M A) (l : list A) : M (list A) :=
  match l with
  | [] => ret []
  | x :: l' =>
      let! x' := body x in
      let! l'' := for_each body l' in
      ret (x' :: l'')
  end.

(** [Model.ParseMeshes(self)]. *)
Definition Model_ParseMeshes (g : option Model.t) (self : Model.t) : M Model.t :=
  let! objects := for_each (Object_ParseMeshes g) (Model.objects self) in
  ret (set_objects self objects).

(** [Model.ParseSkeleton(self)]. *)
Definition Model_ParseSkeleton (self : Model.t) : M Model.t :=
  let! _ := seek (Model.skeletonOffs self) in
  let! skeleton := Skeleton_init (Model.boneCount self) in
  ret (set_skeleton self skeleton).

(** [Import], up to the mesh headers:
    [global model; model = Model(f); model.ParseObjects();
    model.ParseMeshes()].  The global names the very object the later calls
    fill in, so what [Mesh.__init__] reads during [ParseMeshes] is the model
    as [ParseObjects] left it. *)
Definition Import_headers : M Model.t :=
  let! model := Model_init in
  let! model := Model_ParseObjects model in
  Model_ParseMeshes (Some model) model.

(** ** Decoded values

    What each decoder returns on a file it can read, written as a function
    of the file and of the offset it starts from. *)

(** The model shell found at offset [p]. *)
Definition header_at (f : File) (p : Z) : Model.t :=
  {| Model.Id := string_at f 4 p;
     Model.version := float_at f (p + 4);
     Model.padding := sint_at f 8 (p + 8);
     Model.objectCount := uint_at f 1 (p + 16);
     Model.boneCount := sint_at f 1 (p + 17);
     Model.numTex := sint_at f 1 (p + 18);
     Model.uknByte := sint_at f 1 (p + 19);
     Model.ukn := sint_at f 4 (p + 20);
     Model.ukn2 := sint_at f 8 (p + 24);
     Model.skeletonOffs := sint_at f 8 (p + 32);
     Model.objects := [];
     Model.skeleton := None |}.

(** The layout branch of the mesh constructor. *)
Definition skinned (model : Model.t) : bool :=
  negb (String.eqb (Model.Id model) "SCM ").

(** The mesh header found at offset [p] when the global model is [model]. *)
Definition mesh_at (model : Model.t) (f : File) (meshIdx : Z) (p : Z) : Mesh.t :=
  {| Mesh.meshIdx := meshIdx;
     Mesh.vertCount := sint_at f 2 p;
     Mesh.texInd := sint_at f 2 (p + 2);
     Mesh.positionsOffs := sint_at f 8 (p + 16);
     Mesh.normalsOffs := sint_at f 8 (p + 24);
     Mesh.UVsOffs := sint_at f 8 (p + 32);
     Mesh.boneIndiciesOffs :=
       if skinned model then Some (sint_at f 8 (p + 40)) else None;
     Mesh.weightsOffs :=
       if skinned model then Some (sint_at f 8 (p + 48)) else None;
     Mesh.uknOffs :=
       if skinned model then None else Some (sint_at f 8 (p + 56));
     Mesh.ukn := sint_at f 8 (p + 64);
     Mesh.positions := replicate (Z.to_nat (sint_at f 2 p)) VectorClass;
     Mesh.normals := [];
     Mesh.UVs := [];
     Mesh.boneIndicies := [];
     Mesh.boneWeights := [];
     Mesh.vertColour := [];
     Mesh.triSkip := [];
     Mesh.faces := [];
     Mesh.vertGrp := replicate (Z.to_nat (Model.boneCount model)) None |}.

(** The object record found at offset [p]. *)
Definition object_at (f : File) (objectIdx : Z) (p : Z) : Object.t :=
  {| Object.objectIdx := objectIdx;
     Object.meshCount := sint_at f 1 p;
     Object.ukn := sint_at f 1 (p + 1);
     Object.numVerts := sint_at f 2 (p + 2);
     Object.mshOffs := sint_at f 8 (p + 8);
     Object.flags := sint_at f 4 (p + 16);
     Object.X := float_at f (p + 48);
     Object.Y := float_at f (p + 52);
     Object.Z_ := float_at f (p + 56);
     Object.radius := float_at f (p + 60);
     Object.meshes := None |}.

(** Two bones that differ at most in their parent. *)
Definition same_joint (b b' : Bone.t) : Prop :=
  Bone.position b = Bone.position b' /\ Bone.idx b = Bone.idx b'.

(** The [n] signed bytes found from offset [p] on. *)
Definition table_at (f : File) (p n : Z) : list Z :=
  (fun k => sint_at f 1 (p + k)) <$> seqZ 0 n.

(** The bone the transform loop builds from the 12 bytes at offset [p]. *)
Definition bone_at (f : File) (i p : Z) : Bone.t :=
  {| Bone.position := [float_at f p; float_at f (p + 4); float_at f (p + 8)];
     Bone.idx := i;
     Bone.parent := None |}.

(** The bones as the transform loop leaves them, before the remap. *)
Definition bones_at (f : File) (p n : Z) : list Bone.t :=
  (fun k => bone_at f k (p + 32 * k)) <$> seqZ 0 n.

(** The skeleton of [boneCount] bones whose block starts at [base], with
    [bones] for its bone list. *)
Definition skeleton_at (f : File) (base boneCount : Z) (bones : list Bone.t)
    : Skeleton.t :=
  {| Skeleton.boneCount := boneCount;
     Skeleton.hierarchyOffs := sint_at f 4 base;
     Skeleton.hierarchyOrderOffs := sint_at f 4 (base + 4);
     Skeleton.childIdxOffs := sint_at f 4 (base + 8);
     Skeleton.transformsOffs := sint_at f 4 (base + 12);
     Skeleton.bones := bones;
     Skeleton.hierarchy := table_at f (base + sint_at f 4 base) boneCount;
     Skeleton.hierarchyOrder :=
       table_at f (base + sint_at f 4 (base + 4)) boneCount;
     Skeleton.childIndices :=
       table_at f (base + sint_at f 4 (base + 8)) boneCount;
     Skeleton.parents := replicate (Z.to_nat boneCount) (-1) |}.

(** A table of [n] entries of [width] bytes, [stride] bytes apart, starting
    at [start], can be sought and read. *)
Definition table_in_bounds (f : File) (start n stride width : Z) : bool :=
  (0 <=? start) &&
  ((n <=? 0) || (start + stride * (n - 1) + width <=? Z.of_nat (length f))).

(** The skeleton block at [base] can be read: the four offsets are inside the
    file and so are the four tables they point to. *)
Definition block_in_bounds (f : File) (base boneCount : Z) : bool :=
  (0 <=? base) && (base + 16 <=? Z.of_nat (length f)) &&
  table_in_bounds f (base + sint_at f 4 base) boneCount 1 1 &&
  table_in_bounds f (base + sint_at f 4 (base + 4)) boneCount 1 1 &&
  table_in_bounds f (base + sint_at f 4 (base + 8)) boneCount 1 1 &&
  table_in_bounds f (base + sint_at f 4 (base + 12)) boneCount 32 12.

(** Every entry of the order table is a Python index into a list of
    [boneCount] bones. *)
Definition order_in_range (f : File) (base boneCount : Z) : bool :=
  forallb (fun ov => (- boneCount <=? ov) && (ov <? boneCount))
          (table_at f (base + sint_at f 4 (base + 4)) boneCount).

(** After the remap loop, entry [i] of the two tables has reached its bone:
    the bone that [hierarchyOrder[i]] names carries [hierarchy[i]], unless a
    later entry of [hierarchyOrder] names the same bone and has overwritten
    it. *)
Definition entry_assigned (h o : list Z) (bones : list Bone.t) (upto i : nat)
    : Prop :=
  exists ov hv j b,
    o !! i = Some ov /\ h !! i = Some hv /\
    py_index (length bones) ov = Some j /\ bones !! j = Some b /\
    ((forall i' ov', (i < i' < upto)%nat -> o !! i' = Some ov' ->
                     py_index (length bones) ov' <> Some j) ->
     Bone.parent b = Some hv).

(** ** Errors *)

Definition raises_only (P : Error -> Prop) {A} (m : M A) : Prop :=
  forall f p e, m f p = inl e -> P e.

(** The errors of the reader, of [f.seek] and of list indexing. *)
Definition reader_error (e : Error) : Prop :=
  e = OutOfBounds \/ e = SeekError \/ e = IndexError.

(** ** Triangle strips *)

(** An entry of the index/skip stream. *)
Inductive strip_entry :=
  | Skip
  | Index (v : Z).

(** The sliding window: the non-skipped indices seen since the last restart,
    the last two of them at most. *)
Inductive strip_window :=
  | W0
  | W1 (p : Z)
  | W2 (p q : Z).

Record strip_state := {
  window : strip_window;
  flipped : bool
}.

Definition strip_start : strip_state := {| window := W0; flipped := false |}.

(** A triangle of the window [p], [q] and the new index [v]; a flipped one
    swaps its first two corners. *)
Definition oriented (fl : bool) (p q v : Z) : Z * Z * Z :=
  if fl then (q, p, v) else (p, q, v).

(** Modelled from the spec: the topology pass of [common/meshutils.py]
    ([ParseVerts]) is not part of the sources at hand.  The specification
    gives: a 2-entry sliding window of the last two non-skipped indices; a
    skip marker resets the window and emits no face; any other index combines
    with the current window to emit one triangle and becomes part of the new
    window; the winding order alternates every step; after a skip the strip
    restarts with a fresh triangle.  An index that finds fewer than two
    indices in the window can only join it, as in the specification's example
    stream. *)
Definition strip_step (st : strip_state) (e : strip_entry)
    : strip_state * list (Z * Z * Z) :=
  match e with
  | Skip => (strip_start, [])
  | Index v =>
      match window st with
      | W0 => ({| window := W1 v; flipped := flipped st |}, [])
      | W1 p => ({| window := W2 p v; flipped := flipped st |}, [])
      | W2 p q =>
          ({| window := W2 q v; flipped := negb (flipped st) |},
           [oriented (flipped st) p q v])
      end
  end.

Fixpoint unroll (st : strip_state) (stream : list strip_entry)
    : list (Z * Z * Z) :=
  match stream with
  | [] => []
  | e :: rest => (strip_step st e).2 ++ unroll (strip_step st e).1 rest
  end.

Definition triangles (stream : list strip_entry) : list (Z * Z * Z) :=
  unroll strip_start stream.

Definition window_size (w : strip_window) : nat :=
  match w with
  | W0 => 0
  | W1 _ => 1
  | W2 _ _ => 2
  end.

(** ** Sample files *)

Definition byte_of_Z (z : Z) : byte :=
  default x00 (Byte.of_N (Z.to_N (z mod 256))).

Definition bytes_of (l : list Z) : File := byte_of_Z <$> l.

(** Little-endian encoding of [z] on [w] bytes. *)
Fixpoint le_split (w : nat) (z : Z) : list Z :=
  match w with
  | O => []
  | Datatypes.S w' => z mod 256 :: le_split w' (z / 256)
  end.

(** The tags the source compares [Model.Id] with. *)
Definition recognized_tag (tag : string) : bool :=
  String.eqb tag "SCM " || String.eqb tag "MOD ".

(** A 40-byte header. *)
Definition header_file (tag : string) (objectCount boneCount : Z) : File :=
  String.list_byte_of_string tag ++
  bytes_of (le_split 4 1 ++ le_split 8 0 ++ [objectCount; boneCount; 1; 0]
            ++ le_split 4 0 ++ le_split 8 0 ++ le_split 8 192).

(** An 80-byte mesh header: 3 vertices, texture 1, offsets 256, 512, ... *)
Definition mesh_record : list Z :=
  le_split 2 3 ++ le_split 2 1 ++ replicate 12 0
  ++ le_split 8 256 ++ le_split 8 512 ++ le_split 8 768
  ++ le_split 8 1024 ++ le_split 8 1280 ++ le_split 8 1536
  ++ le_split 8 7 ++ replicate 8 0.

Definition mesh_file : File := bytes_of mesh_record.

(** A 64-byte object record. *)
Definition object_record (meshCount mshOffs : Z) : list Z :=
  [meshCount; 0] ++ le_split 2 3 ++ le_split 4 0 ++ le_split 8 mshOffs
  ++ le_split 4 5 ++ replicate 28 0
  ++ le_split 4 1 ++ le_split 4 2 ++ le_split 4 3 ++ le_split 4 4.

(** A header, two objects at 0x40 and one mesh header at 192. *)
Definition model_file : File :=
  header_file "MOD " 2 0 ++
  bytes_of (replicate 24 0 ++ object_record 1 192 ++ object_record 0 192
            ++ mesh_record).

Definition sample_model (tag : string) (boneCount : Z) : Model.t :=
  {| Model.Id := tag;
     Model.version := 1;
     Model.padding := 0;
     Model.objectCount := 1;
     Model.boneCount := boneCount;
     Model.numTex := 1;
     Model.uknByte := 0;
     Model.ukn := 0;
     Model.ukn2 := 0;
     Model.skeletonOffs := 192;
     Model.objects := [];
     Model.skeleton := None |}.

Definition sample_object : Object.t := object_at model_file 0 0x40.

(** A skeleton block of three bones: the four offsets, then the parent,
    order and child tables, then three 32-byte transforms. *)
Definition skeleton_file (hierarchy hierarchyOrder childIndices : list Z) : File :=
  bytes_of (le_split 4 16 ++ le_split 4 19 ++ le_split 4 22 ++ le_split 4 25
            ++ hierarchy ++ hierarchyOrder ++ childIndices
            ++ concat (replicate 3 (le_split 4 1 ++ le_split 4 2 ++ le_split 4 3
                                    ++ replicate 20 0))).

Definition permuted_file : File := skeleton_file [2; -1; 0] [1; 2; 0] [-1; -1; -1].

Definition cyclic_file : File := skeleton_file [1; 0; -1] [0; 1; 2] [-1; -1; -1].

Definition sample_bone (idx : Z) (parent : Z) : Bone.t :=
  {| Bone.position := [1; 2; 3]; Bone.idx := idx; Bone.parent := Some parent |}.

Definition sample_skeleton (hierarchy hierarchyOrder : list Z)
    (bones : list Bone.t) : Skeleton.t :=
  {| Skeleton.boneCount := 3;
     Skeleton.hierarchyOffs := 16;
     Skeleton.hierarchyOrderOffs := 19;
     Skeleton.childIdxOffs := 22;
     Skeleton.transformsOffs := 25;
     Skeleton.bones := bones;
     Skeleton.hierarchy := hierarchy;
     Skeleton.hierarchyOrder := hierarchyOrder;
     Skeleton.childIndices := [-1; -1; -1];
     Skeleton.parents := [-1; -1; -1] |}.

Definition permuted_skeleton : Skeleton.t :=
  sample_skeleton [2; -1; 0] [1; 2; 0]
    [sample_bone 0 0; sample_bone 1 2; sample_bone 2 (-1)].

Definition cyclic_skeleton : Skeleton.t :=
  sample_skeleton [1; 0; -1] [0; 1; 2]
    [sample_bone 0 1; sample_bone 1 0; sample_bone 2 (-1)].

(** ** Whole tables *)

(** The [n] object records found from 0x40 on. *)
Definition objects_at (f : File) (n : Z) : list Object.t :=
  (fun k => object_at f k (0x40 + 64 * k)) <$> seqZ 0 n.

(** The mesh headers of the object [o], read with [model] for global. *)
Definition meshes_at (model : Model.t) (f : File) (o : Object.t) : list Mesh.t :=
  (fun k => mesh_at model f k (Object.mshOffs o + 80 * k))
    <$> seqZ 0 (Object.meshCount o).

(** The mesh table of [o] can be sought and read. *)
Definition meshes_in_bounds (f : File) (o : Object.t) : bool :=
  table_in_bounds f (Object.mshOffs o) (Object.meshCount o) 80 72.

(** Where [Model.ParseMeshes] leaves the cursor: after the table of the last
    object, or where it was when there is no object. *)
Definition cursor_after_meshes (p : Z) (objects : list Object.t) : Z :=
  foldl (fun _ o => Object.mshOffs o + 80 * Z.max 0 (Object.meshCount o))
        p objects.

(** A block whose order table names bone 3 of 3. *)
Definition bad_order_file : File :=
  skeleton_file [2; -1; 0] [1; 3; 0] [-1; -1; -1].

(** A block of three bones whose order table names bone 0 twice (once as -3)
    and never bone 2. *)
Definition repeated_order_file : File :=
  skeleton_file [2; -1; 1] [0; 1; -3] [-1; -1; -1].

(** A model shell whose skeleton offset is [offs]. *)
Definition set_skeleton_offset_sample (offs : Z) : Model.t :=
  {| Model.Id := "MOD ";
     Model.version := 1;
     Model.padding := 0;
     Model.objectCount := 0;
     Model.boneCount := 0;
     Model.numTex := 1;
     Model.uknByte := 0;
     Model.ukn := 0;
     Model.ukn2 := 0;
     Model.skeletonOffs := offs;
     Model.objects := [];
     Model.skeleton := None |}.

(** ** Observing a result *)

(** Two models with the same header fields (everything but [objects] and
    [skeleton]). *)
Definition same_header (m m' : Model.t) : Prop :=
  Model.Id m' = Model.Id m /\
  Model.version m' = Model.version m /\
  Model.padding m' = Model.padding m /\
  Model.objectCount m' = Model.objectCount m /\
  Model.boneCount m' = Model.boneCount m /\
  Model.numTex m' = Model.numTex m /\
  Model.uknByte m' = Model.uknByte m /\
  Model.ukn m' = Model.ukn m /\
  Model.ukn2 m' = Model.ukn2 m /\
  Model.skeletonOffs m' = Model.skeletonOffs m.

(** Two objects with the same record fields (everything but [meshes]). *)
Definition same_record (o o' : Object.t) : Prop :=
  Object.objectIdx o' = Object.objectIdx o /\
  Object.meshCount o' = Object.meshCount o /\
  Object.ukn o' = Object.ukn o /\
  Object.numVerts o' = Object.numVerts o /\
  Object.mshOffs o' = Object.mshOffs o /\
  Object.flags o' = Object.flags o /\
  Object.X o' = Object.X o /\
  Object.Y o' = Object.Y o /\
  Object.Z_ o' = Object.Z_ o /\
  Object.radius o' = Object.radius o.

(** The mesh table of [o] can be read and starts inside the file. *)
Definition mesh_table_fits (f : File) (o : Object.t) : bool :=
  meshes_in_bounds f o && (Object.mshOffs o <=? Z.of_nat (length f)).

(** Entry [k] of the order table [o] names the bone at list index [j] of a
    list of [len] bones. *)
Definition names_bone (o : list Z) (len j k : nat) : bool :=
  match o !! k with
  | Some ov => bool_decide (py_index len ov = Some j)
  | None => false
  end.

Definition repeated_skeleton : Skeleton.t :=
  sample_skeleton [2; -1; 1] [0; 1; -3]
    [sample_bone 0 1; sample_bone 1 (-1);
     {| Bone.position := [1; 2; 3]; Bone.idx := 2; Bone.parent := None |}].

(** * Properties *)

(** ** The monad and the primitive reads *)

Lemma length_slice (f : File) (p : Z) (n : nat) :
  0 <= p ->
  length (slice f p n) = Nat.min n (length f - Z.to_nat p).
Proof.
  intros Hp. unfold slice. by rewrite length_take, length_drop.
Qed.

(** A read succeeds exactly when its last byte is inside the file. *)
Lemma read_spec (f : File) (p : Z) (n : nat) :
  0 <= p -> (0 < n)%nat ->
  read n f p =
    if p + Z.of_nat n <=? Z.of_nat (length f)
    then inr (slice f p n, p + Z.of_nat n)
    else inl OutOfBounds.
Proof.
  intros Hp Hn. unfold read. cbv zeta. rewrite length_slice by done.
  destruct (Z.leb_spec (p + Z.of_nat n) (Z.of_nat (length f)));
    destruct (Nat.ltb_spec (Nat.min n (length f - Z.to_nat p)) n);
    first [done | exfalso; lia].
Qed.

Lemma read_signed_spec (w : nat) (f : File) (p : Z) :
  0 <= p -> (0 < w)%nat ->
  read_signed w f p =
    if p + Z.of_nat w <=? Z.of_nat (length f)
    then inr (sint_at f w p, p + Z.of_nat w)
    else inl OutOfBounds.
Proof.
  intros Hp Hw. unfold read_signed, bind. rewrite read_spec by done.
  by destruct (_ <=? _).
Qed.

Lemma ReadByte_spec (f : File) (p : Z) :
  0 <= p ->
  ReadByte f p =
    if p + 1 <=? Z.of_nat (length f)
    then inr (sint_at f 1 p, p + 1) else inl OutOfBounds.
Proof. intros Hp. apply (read_signed_spec 1); [done | lia]. Qed.

Lemma ReadSInt16_spec (f : File) (p : Z) :
  0 <= p ->
  ReadSInt16 f p =
    if p + 2 <=? Z.of_nat (length f)
    then inr (sint_at f 2 p, p + 2) else inl OutOfBounds.
Proof. intros Hp. apply (read_signed_spec 2); [done | lia]. Qed.

Lemma ReadSInt32_spec (f : File) (p : Z) :
  0 <= p ->
  ReadSInt32 f p =
    if p + 4 <=? Z.of_nat (length f)
    then inr (sint_at f 4 p, p + 4) else inl OutOfBounds.
Proof. intros Hp. apply (read_signed_spec 4); [done | lia]. Qed.

Lemma ReadSInt64_spec (f : File) (p : Z) :
  0 <= p ->
  ReadSInt64 f p =
    if p + 8 <=? Z.of_nat (length f)
    then inr (sint_at f 8 p, p + 8) else inl OutOfBounds.
Proof. intros Hp. apply (read_signed_spec 8); [done | lia]. Qed.

Lemma ReadUByte_spec (f : File) (p : Z) :
  0 <= p ->
  ReadUByte f p =
    if p + 1 <=? Z.of_nat (length f)
    then inr (uint_at f 1 p, p + 1) else inl OutOfBounds.
Proof.
  intros Hp. unfold ReadUByte, bind. rewrite read_spec by (done || lia).
  by destruct (_ <=? _).
Qed.

Lemma ReadFloat_spec (f : File) (p : Z) :
  0 <= p ->
  ReadFloat f p =
    if p + 4 <=? Z.of_nat (length f)
    then inr (float_at f p, p + 4) else inl OutOfBounds.
Proof.
  intros Hp. unfold ReadFloat, bind. rewrite read_spec by (done || lia).
  by destruct (_ <=? _).
Qed.

Lemma ReadString_spec (n : nat) (f : File) (p : Z) :
  0 <= p -> (0 < n)%nat ->
  ReadString n f p =
    if p + Z.of_nat n <=? Z.of_nat (length f)
    then inr (string_at f n p, p + Z.of_nat n) else inl OutOfBounds.
Proof.
  intros Hp Hn. unfold ReadString, bind. rewrite read_spec by done.
  by destruct (_ <=? _).
Qed.

Lemma seek_cur_spec (d : Z) (f : File) (p : Z) :
  0 <= p + d -> seek_cur d f p = inr (tt, p + d).
Proof.
  intros Hp. unfold seek_cur. by destruct (Z.ltb_spec (p + d) 0); [lia|].
Qed.

Lemma seek_spec (t : Z) (f : File) (p : Z) :
  0 <= t -> seek t f p = inr (tt, t).
Proof.
  intros Ht. unfold seek. by destruct (Z.ltb_spec t 0); [lia|].
Qed.

(** One step of a straight-line decoder: expose the next primitive, replace
    it by its equation, and decide whether it is inside the file. *)
Ltac expose := cbv beta iota zeta delta [bind ret global_model].

Ltac rewrite_prim :=
  first
    [ rewrite ReadByte_spec by lia
    | rewrite ReadUByte_spec by lia
    | rewrite ReadSInt16_spec by lia
    | rewrite ReadSInt32_spec by lia
    | rewrite ReadSInt64_spec by lia
    | rewrite ReadFloat_spec by lia
    | rewrite ReadString_spec by lia
    | rewrite seek_cur_spec by lia
    | rewrite seek_spec by lia ].

Ltac decide_bound :=
  match goal with
  | |- context [if ?a <=? ?b then _ else _] =>
      destruct (Z.leb_spec a b); [| first [reflexivity | exfalso; lia]]
  end.

Ltac run_decoder :=
  repeat (expose; rewrite_prim; try decide_bound); expose.

(** ** The header *)

(** Offsets accumulate as [p + a + b + ...]; fold the constants. *)
Ltac fold_offsets :=
  change (Z.of_nat 4) with 4;
  repeat match goal with
         | |- context [?p + ?a + ?b] =>
             let c := eval vm_compute in (a + b) in
             lazymatch c with
             | Z.pos _ => replace (p + a + b) with (p + c) by lia
             end
         end.

Lemma Model_init_ok (f : File) (p : Z) :
  0 <= p -> p + 40 <= Z.of_nat (length f) ->
  Model_init f p = inr (header_at f p, p + 40).
Proof.
  intros Hp Hlen. unfold Model_init, header_at. run_decoder.
  by fold_offsets.
Qed.

Lemma Model_init_short (f : File) (p : Z) :
  0 <= p -> Z.of_nat (length f) < p + 40 ->
  Model_init f p = inl OutOfBounds.
Proof.
  intros Hp Hlen. unfold Model_init. run_decoder. exfalso; lia.
Qed.

(** ** Loops *)

Lemma seqZ_succ_fmap {A} (v : Z -> A) (n : nat) :
  v <$> seqZ 0 (Z.of_nat (S n)) =
  v 0 :: ((fun k => v (1 + k)) <$> seqZ 0 (Z.of_nat n)).
Proof.
  rewrite seqZ_cons by lia. rewrite fmap_cons. f_equal.
  replace (Z.pred (Z.of_nat (S n))) with (Z.of_nat n) by lia.
  change (Z.succ 0) with (1 + 0).
  rewrite <- (fmap_add_seqZ 1 0). by rewrite <- list_fmap_compose.
Qed.

(** A comprehension whose element decoder consumes [stride] bytes and needs
    [need] of them inside the file yields the elements found at
    [p], [p + stride], ... *)
Lemma comprehension_stride {A} (e : Z -> M A) (v : Z -> Z -> A)
    (stride need : Z) (f : File) :
  0 <= stride ->
  (forall i p, 0 <= p -> p + need <= Z.of_nat (length f) ->
               e i f p = inr (v i p, p + stride)) ->
  forall (n : nat) (i p : Z),
    0 <= p ->
    ((0 < n)%nat ->
     p + stride * (Z.of_nat n - 1) + need <= Z.of_nat (length f)) ->
    comprehension e i n f p =
      inr ((fun k => v (i + k) (p + stride * k)) <$> seqZ 0 (Z.of_nat n),
           p + stride * Z.of_nat n).
Proof.
  intros Hs He n. induction n as [|n IH]; intros i p Hp Hlen.
  - cbn. unfold ret. do 2 f_equal. lia.
  - cbn [comprehension]. unfold bind at 1.
    rewrite He by (done || (specialize (Hlen ltac:(lia)); nia)).
    unfold bind at 1.
    rewrite IH by (nia || (intros ?; specialize (Hlen ltac:(lia)); nia)).
    unfold ret. rewrite seqZ_succ_fmap. f_equal. f_equal; [|lia].
    f_equal; [f_equal; lia|].
    apply list_fmap_ext. intros _ k _. f_equal; lia.
Qed.

(** The same for a [for] loop whose body appends one decoded element. *)
Lemma for_loop_append_stride {A} (body : Z -> list A -> M (list A))
    (v : Z -> Z -> A) (stride need : Z) (f : File) :
  0 <= stride ->
  (forall i acc p, 0 <= p -> p + need <= Z.of_nat (length f) ->
                   body i acc f p = inr (acc ++ [v i p], p + stride)) ->
  forall (n : nat) (i p : Z) (acc : list A),
    0 <= p ->
    ((0 < n)%nat ->
     p + stride * (Z.of_nat n - 1) + need <= Z.of_nat (length f)) ->
    for_loop body i n acc f p =
      inr (acc ++ ((fun k => v (i + k) (p + stride * k)) <$> seqZ 0 (Z.of_nat n)),
           p + stride * Z.of_nat n).
Proof.
  intros Hs He n. induction n as [|n IH]; intros i p acc Hp Hlen.
  - cbn. unfold ret. rewrite app_nil_r. do 2 f_equal. lia.
  - cbn [for_loop]. unfold bind at 1.
    rewrite He by (done || (specialize (Hlen ltac:(lia)); nia)).
    rewrite IH by (nia || (intros ?; specialize (Hlen ltac:(lia)); nia)).
    rewrite seqZ_succ_fmap, <- app_assoc. f_equal. f_equal; [|lia].
    f_equal. cbn [app]. f_equal; [f_equal; lia|].
    apply list_fmap_ext. intros _ k _. f_equal; lia.
Qed.

(** Partial correctness of a [for] loop from an invariant of its body. *)
Lemma for_loop_inv {St} (I : Z -> St -> Z -> Prop) (body : Z -> St -> M St)
    (f : File) :
  (forall k s p s' p',
     I k s p -> body k s f p = inr (s', p') -> I (k + 1) s' p') ->
  forall (n : nat) (i : Z) (s : St) (p : Z) (s' : St) (p' : Z),
    I i s p ->
    for_loop body i n s f p = inr (s', p') ->
    I (i + Z.of_nat n) s' p'.
Proof.
  intros Hbody n. induction n as [|n IH]; intros i s p s' p' HI Hrun.
  - cbn in Hrun. unfold ret in Hrun. simplify_eq.
    by replace (i + Z.of_nat 0) with i by lia.
  - cbn [for_loop] in Hrun. unfold bind in Hrun.
    destruct (body i s f p) as [e|[s1 p1]] eqn:Hstep; [done|].
    replace (i + Z.of_nat (S n)) with (i + 1 + Z.of_nat n) by lia.
    eapply IH; [|exact Hrun]. eauto.
Qed.

(** ** Mesh headers and objects *)

Lemma Mesh_init_ok (model : Model.t) (meshIdx : Z) (f : File) (p : Z) :
  0 <= p -> p + 72 <= Z.of_nat (length f) ->
  Mesh_init (Some model) meshIdx f p = inr (mesh_at model f meshIdx p, p + 80).
Proof.
  intros Hp Hlen. unfold Mesh_init, mesh_at, skinned.
  do 6 (expose; rewrite_prim; try decide_bound). expose.
  destruct (negb _); run_decoder; cbn [fst snd]; by fold_offsets.
Qed.

Lemma Mesh_init_short (model : Model.t) (meshIdx : Z) (f : File) (p : Z) :
  0 <= p -> Z.of_nat (length f) < p + 72 ->
  Mesh_init (Some model) meshIdx f p = inl OutOfBounds.
Proof.
  intros Hp Hlen. unfold Mesh_init.
  do 6 (expose; rewrite_prim; try decide_bound). expose.
  destruct (negb _); run_decoder; exfalso; lia.
Qed.

Lemma Object_init_ok (objectIdx : Z) (f : File) (p : Z) :
  0 <= p -> p + 64 <= Z.of_nat (length f) ->
  Object_init objectIdx f p = inr (object_at f objectIdx p, p + 64).
Proof.
  intros Hp Hlen. unfold Object_init, object_at. run_decoder.
  by fold_offsets.
Qed.

Lemma Object_init_short (objectIdx : Z) (f : File) (p : Z) :
  0 <= p -> Z.of_nat (length f) < p + 64 ->
  Object_init objectIdx f p = inl OutOfBounds.
Proof.
  intros Hp Hlen. unfold Object_init. run_decoder. exfalso; lia.
Qed.

(** ** Python indexing *)

Lemma py_index_lt (len : nat) (k : Z) (j : nat) :
  py_index len k = Some j -> (j < len)%nat.
Proof.
  unfold py_index. intros H.
  destruct (Z.leb_spec 0 k), (Z.ltb_spec k (Z.of_nat len));
    cbn in H; try (simplify_eq; lia);
    destruct (Z.leb_spec (- Z.of_nat len) k), (Z.ltb_spec k 0);
    cbn in H; simplify_eq; lia.
Qed.

Lemma py_index_nonneg (len : nat) (k : Z) :
  0 <= k < Z.of_nat len -> py_index len k = Some (Z.to_nat k).
Proof.
  intros Hk. unfold py_index.
  destruct (Z.leb_spec 0 k), (Z.ltb_spec k (Z.of_nat len)); (done || lia).
Qed.

Lemma py_index_valid (len : nat) (k : Z) :
  - Z.of_nat len <= k < Z.of_nat len -> is_Some (py_index len k).
Proof.
  intros Hk. unfold py_index.
  destruct (Z.leb_spec 0 k), (Z.ltb_spec k (Z.of_nat len)); cbn; eauto;
    destruct (Z.leb_spec (- Z.of_nat len) k), (Z.ltb_spec k 0);
    cbn; eauto; lia.
Qed.

Lemma py_getitem_ok {A} (l : list A) (i : Z) (x : A) (f : File) (p : Z) :
  0 <= i -> l !! Z.to_nat i = Some x -> py_getitem l i f p = inr (x, p).
Proof.
  intros Hi Hx. unfold py_getitem.
  rewrite py_index_nonneg by (apply lookup_lt_Some in Hx; lia).
  by rewrite Hx.
Qed.

Lemma py_getitem_inv {A} (l : list A) (i : Z) (x : A) (f : File) (p p' : Z) :
  0 <= i -> py_getitem l i f p = inr (x, p') ->
  l !! Z.to_nat i = Some x /\ p' = p.
Proof.
  intros Hi. unfold py_getitem, py_index.
  destruct (Z.leb_spec 0 i); [|lia].
  destruct (Z.ltb_spec i (Z.of_nat (length l))); cbn.
  - destruct (l !! Z.to_nat i); unfold ret, raise; intros; by simplify_eq.
  - destruct (Z.ltb_spec i 0); [lia|]. rewrite andb_false_r.
    unfold raise. done.
Qed.

Lemma py_update_ok {A} (l : list A) (k : Z) (j : nat) (upd : A -> A)
    (f : File) (p : Z) :
  py_index (length l) k = Some j ->
  exists x, l !! j = Some x /\ py_update l k upd f p = inr (<[j := upd x]> l, p).
Proof.
  intros Hj. destruct (lookup_lt_is_Some_2 l j) as [x Hx].
  { by eapply py_index_lt. }
  exists x. split; [done|]. unfold py_update. by rewrite Hj, Hx.
Qed.

Lemma py_update_inv {A} (l l' : list A) (k : Z) (upd : A -> A)
    (f : File) (p p' : Z) :
  py_update l k upd f p = inr (l', p') ->
  exists j x, py_index (length l) k = Some j /\ l !! j = Some x /\
              l' = <[j := upd x]> l /\ p' = p.
Proof.
  unfold py_update, raise, ret.
  destruct (py_index (length l) k) as [j|]; [|done].
  destruct (l !! j) as [x|] eqn:Hx; [|done].
  intros. simplify_eq. by exists j, x.
Qed.

(** ** The remap loop *)

(** What one turn of the remap loop does when it returns: the bone that
    [hierarchyOrder[i]] names gets [hierarchy[i]] as its parent, and no other
    bone changes. *)
Lemma remap_step_inv (h o : list Z) (i : Z) (bones bones' : list Bone.t)
    (f : File) (p p' : Z) :
  0 <= i ->
  remap_step h o i bones f p = inr (bones', p') ->
  exists ov hv j b,
    o !! Z.to_nat i = Some ov /\ h !! Z.to_nat i = Some hv /\
    py_index (length bones) ov = Some j /\ bones !! j = Some b /\
    bones' = <[j := set_parent hv b]> bones /\ p' = p.
Proof.
  intros Hi. unfold remap_step, bind.
  destruct (py_getitem h i f p) as [|[hv p1]] eqn:Hh; [done|].
  destruct (py_getitem o i f p1) as [|[ov p2]] eqn:Ho; [done|].
  apply py_getitem_inv in Hh as [Hh ->]; [|done].
  apply py_getitem_inv in Ho as [Ho ->]; [|done].
  intros (j & b & Hj & Hb & -> & ->)%py_update_inv.
  by exists ov, hv, j, b.
Qed.

Lemma same_joint_insert (bones : list Bone.t) (j : nat) (b : Bone.t) (hv : Z) :
  bones !! j = Some b ->
  Forall2 same_joint bones (<[j := set_parent hv b]> bones).
Proof.
  intros Hb. apply Forall2_same_length_lookup_2.
  - by rewrite length_insert.
  - intros k x y Hx Hy. destruct (decide (j = k)) as [->|Hne].
    + rewrite list_lookup_insert_eq in Hy by (by eapply lookup_lt_Some).
      by simplify_eq.
    + rewrite list_lookup_insert_ne in Hy by done. by simplify_eq.
Qed.

Lemma same_joint_trans (l1 l2 l3 : list Bone.t) :
  Forall2 same_joint l1 l2 -> Forall2 same_joint l2 l3 ->
  Forall2 same_joint l1 l3.
Proof.
  intros H12 H23. eapply Forall2_trans; [|done..].
  intros x y z [? ?] [? ?]; split; congruence.
Qed.

Lemma same_joint_refl (l : list Bone.t) : Forall2 same_joint l l.
Proof. apply Forall2_same_length_lookup_2; [done|]. intros; by simplify_eq. Qed.

(** The remap loop cannot fail when [hierarchy] and [hierarchyOrder] cover the
    range and every order entry indexes a bone; the parent values it stores
    are not inspected. *)
Lemma remap_loop_total (h o : list Z) (f : File) (n : nat) :
  forall (i : Z) (bones : list Bone.t) (p : Z),
    0 <= i ->
    (Z.to_nat i + n <= length h)%nat ->
    (Z.to_nat i + n <= length o)%nat ->
    (forall k ov, (Z.to_nat i <= k < Z.to_nat i + n)%nat -> o !! k = Some ov ->
                  is_Some (py_index (length bones) ov)) ->
    exists bones',
      for_loop (remap_step h o) i n bones f p = inr (bones', p) /\
      Forall2 same_joint bones bones'.
Proof.
  induction n as [|n IH]; intros i bones p Hi Hh Ho Hvalid.
  - exists bones. split; [done|]. apply same_joint_refl.
  - destruct (lookup_lt_is_Some_2 h (Z.to_nat i)) as [hv Hhv]; [lia|].
    destruct (lookup_lt_is_Some_2 o (Z.to_nat i)) as [ov Hov]; [lia|].
    destruct (Hvalid (Z.to_nat i) ov) as [j Hj]; [lia|done|].
    destruct (py_update_ok bones ov j (set_parent hv) f p Hj) as (b & Hb & Hupd).
    destruct (IH (i + 1) (<[j := set_parent hv b]> bones) p) as (bones' & Hrun & Hsame).
    + lia.
    + lia.
    + lia.
    + intros k ov' Hk Hov'. rewrite length_insert. apply (Hvalid k); [lia|done].
    + exists bones'. split.
      * cbn [for_loop]. unfold bind at 1. unfold remap_step at 1. unfold bind.
        rewrite (py_getitem_ok h i hv) by done.
        rewrite (py_getitem_ok o i ov) by done.
        by rewrite Hupd.
      * eapply same_joint_trans; [|done]. by apply same_joint_insert.
Qed.

(** ** Reading the skeleton block *)

Lemma seqZ_to_nat (m n : Z) : seqZ m (Z.of_nat (Z.to_nat n)) = seqZ m n.
Proof. unfold seqZ. by rewrite Nat2Z.id. Qed.

Lemma table_in_bounds_spec (f : File) (start n stride width : Z) :
  table_in_bounds f start n stride width = true ->
  0 <= start /\
  ((0 < Z.to_nat n)%nat ->
   start + stride * (Z.of_nat (Z.to_nat n) - 1) + width <= Z.of_nat (length f)).
Proof.
  unfold table_in_bounds. intros [H0 H1]%andb_prop.
  apply Z.leb_le in H0. split; [done|]. intros Hn.
  apply orb_prop in H1 as [H1|H1]; [apply Z.leb_le in H1; lia|].
  apply Z.leb_le in H1. by rewrite Z2Nat.id by lia.
Qed.

Lemma read_table (f : File) (p n : Z) :
  table_in_bounds f p n 1 1 = true ->
  list_comp n (fun _ => ReadByte) f p = inr (table_at f p n, p + Z.max 0 n).
Proof.
  intros [Hp Hlen]%table_in_bounds_spec. unfold list_comp, table_at.
  rewrite (comprehension_stride _ (fun _ q => sint_at f 1 q) 1 1 f);
    [|lia| |done|done].
  - rewrite seqZ_to_nat. f_equal. f_equal; [|lia].
    apply list_fmap_ext. intros _ k _. f_equal. lia.
  - intros _ q Hq Hb. rewrite ReadByte_spec by done.
    by destruct (Z.leb_spec (q + 1) (Z.of_nat (length f))); [|lia].
Qed.

Lemma const_comprehension {A} (x : A) (f : File) (n : nat) :
  forall i p, comprehension (fun _ => ret x) i n f p = inr (replicate n x, p).
Proof.
  induction n as [|n IH]; intros i p; [done|].
  cbn [comprehension]. unfold bind at 1. unfold ret at 1.
  unfold bind. by rewrite IH.
Qed.

Lemma read_bone_ok (i : Z) (acc : list Bone.t) (f : File) (p : Z) :
  0 <= p -> p + 12 <= Z.of_nat (length f) ->
  read_bone i acc f p = inr (acc ++ [bone_at f i p], p + 32).
Proof.
  intros Hp Hlen. unfold read_bone, bone_at. run_decoder. by fold_offsets.
Qed.

Lemma read_bones (f : File) (p n : Z) :
  table_in_bounds f p n 32 12 = true ->
  for_range n read_bone [] f p = inr (bones_at f p n, p + 32 * Z.max 0 n).
Proof.
  intros [Hp Hlen]%table_in_bounds_spec. unfold for_range, bones_at.
  rewrite (for_loop_append_stride _ (fun k q => bone_at f k q) 32 12 f);
    [|lia| |done|done].
  - rewrite seqZ_to_nat. cbn [app]. f_equal. f_equal; lia.
  - intros k acc q Hq Hb. by apply read_bone_ok.
Qed.

Lemma length_table_at (f : File) (p n : Z) :
  length (table_at f p n) = Z.to_nat n.
Proof. unfold table_at. by rewrite length_fmap, length_seqZ. Qed.

Lemma length_bones_at (f : File) (p n : Z) :
  length (bones_at f p n) = Z.to_nat n.
Proof. unfold bones_at. by rewrite length_fmap, length_seqZ. Qed.

(** Total correctness of the constructor: a block that can be read, with order
    entries that index bones, always decodes, whatever the parent table
    holds. *)
Lemma Skeleton_init_total (f : File) (base boneCount : Z) :
  block_in_bounds f base boneCount = true ->
  order_in_range f base boneCount = true ->
  exists bones p',
    Skeleton_init boneCount f base =
      inr (skeleton_at f base boneCount bones, p') /\
    for_range boneCount
      (remap_step (table_at f (base + sint_at f 4 base) boneCount)
                  (table_at f (base + sint_at f 4 (base + 4)) boneCount))
      (bones_at f (base + sint_at f 4 (base + 12)) boneCount) f p'
      = inr (bones, p') /\
    Forall2 same_joint
      (bones_at f (base + sint_at f 4 (base + 12)) boneCount) bones.
Proof.
  unfold block_in_bounds.
  intros [[[[[Hb H16]%andb_prop Hh]%andb_prop Ho]%andb_prop Hc]%andb_prop Ht]%andb_prop Hord.
  apply Z.leb_le in Hb, H16.
  pose proof (table_in_bounds_spec _ _ _ _ _ Hh) as [Hh0 _].
  pose proof (table_in_bounds_spec _ _ _ _ _ Ho) as [Ho0 _].
  pose proof (table_in_bounds_spec _ _ _ _ _ Hc) as [Hc0 _].
  pose proof (table_in_bounds_spec _ _ _ _ _ Ht) as [Ht0 _].
  set (p' := base + sint_at f 4 (base + 12) + 32 * Z.max 0 boneCount).
  destruct (remap_loop_total
              (table_at f (base + sint_at f 4 base) boneCount)
              (table_at f (base + sint_at f 4 (base + 4)) boneCount)
              f (Z.to_nat boneCount) 0
              (bones_at f (base + sint_at f 4 (base + 12)) boneCount) p')
    as (bones & Hrun & Hsame).
  { done. }
  { rewrite length_table_at. lia. }
  { rewrite length_table_at. lia. }
  { intros k ov _ Hov. rewrite length_bones_at.
    unfold order_in_range in Hord. rewrite forallb_forall in Hord.
    specialize (Hord ov). rewrite <- list_elem_of_In in Hord.
    apply list_elem_of_lookup_2 in Hov. apply Hord in Hov.
    apply andb_prop in Hov as [H1%Z.leb_le H2%Z.ltb_lt].
    apply py_index_valid. lia. }
  exists bones, p'. split; [|by split].
  unfold Skeleton_init, skeleton_at, tell.
  do 4 (expose; rewrite_prim; try decide_bound). expose.
  fold_offsets.
  rewrite seek_spec by done. expose. rewrite (read_table _ _ _ Hh). expose.
  rewrite seek_spec by done. expose. rewrite (read_table _ _ _ Ho). expose.
  rewrite seek_spec by done. expose. rewrite (read_table _ _ _ Hc). expose.
  rewrite seek_spec by done. expose. rewrite (read_bones _ _ _ Ht). expose.
  pose proof (const_comprehension (-1) f (Z.to_nat boneCount) 0) as Hconst.
  cbv beta delta [ret] in Hconst.
  unfold list_comp. rewrite Hconst. expose.
  fold p'. unfold for_range in *. by rewrite Hrun.
Qed.

(** ** What a decoded skeleton looks like *)

(** Peel the binds of a run that is known to have returned. *)
Ltac invert_run H :=
  cbv beta delta [bind] in H;
  repeat match type of H with
         | match ?m with inl _ => _ | inr _ => _ end = inr _ =>
             let E := fresh "E" in
             destruct m as [?|[? ?]] eqn:E; [discriminate H|];
             cbv beta iota in H
         end.

Lemma read_bone_inv (i : Z) (acc bones : list Bone.t) (f : File) (p p' : Z) :
  read_bone i acc f p = inr (bones, p') ->
  exists b, bones = acc ++ [b] /\ Bone.idx b = i /\ Bone.parent b = None.
Proof.
  intros H. unfold read_bone in H. invert_run H.
  unfold ret in H. simplify_eq. eauto.
Qed.

Lemma read_bones_length (f : File) (n : nat) (p p' : Z) (bones : list Bone.t) :
  for_loop read_bone 0 n [] f p = inr (bones, p') -> length bones = n.
Proof.
  intros H.
  pose proof (for_loop_inv
    (fun k (bs : list Bone.t) (_ : Z) => Z.of_nat (length bs) = k)
    read_bone f) as Hinv.
  assert (Hstep : forall k s q s' q',
    Z.of_nat (length s) = k -> read_bone k s f q = inr (s', q') ->
    Z.of_nat (length s') = k + 1).
  { intros k s q s' q' Hk (b & -> & _)%read_bone_inv.
    rewrite length_app. cbn [length]. lia. }
  specialize (Hinv Hstep n 0 [] p bones p' eq_refl H).
  cbv beta in Hinv. lia.
Qed.

(** The remap loop keeps the length of the bone list. *)
Lemma remap_loop_length (h o : list Z) (f : File) (n : nat) (i : Z)
    (bones bones' : list Bone.t) (p p' : Z) :
  0 <= i ->
  for_loop (remap_step h o) i n bones f p = inr (bones', p') ->
  length bones' = length bones.
Proof.
  intros Hi H.
  pose proof (for_loop_inv
    (fun k (bs : list Bone.t) (_ : Z) => i <= k /\ length bs = length bones)
    (remap_step h o) f) as Hinv.
  assert (Hstep : forall k s q s' q',
    i <= k /\ length s = length bones ->
    remap_step h o k s f q = inr (s', q') ->
    i <= k + 1 /\ length s' = length bones).
  { intros k s q s' q' [Hk Hlen] Hstep.
    apply remap_step_inv in Hstep as (? & ? & ? & ? & _ & _ & _ & _ & -> & _);
      [|lia].
    rewrite length_insert. split; [lia|done]. }
  by destruct (Hinv Hstep n i bones p bones' p' ltac:(split; [lia|done]) H).
Qed.

Lemma remap_loop_parents (h o : list Z) (f : File) (n : nat)
    (bones bones' : list Bone.t) (p p' : Z) :
  for_loop (remap_step h o) 0 n bones f p = inr (bones', p') ->
  forall i, (i < n)%nat -> entry_assigned h o bones' n i.
Proof.
  intros H.
  pose proof (for_loop_inv
    (fun k (bs : list Bone.t) (_ : Z) =>
       0 <= k /\ length bs = length bones /\
       forall i, (i < Z.to_nat k)%nat -> entry_assigned h o bs (Z.to_nat k) i)
    (remap_step h o) f) as Hinv.
  assert (Hstep : forall k s q s' q',
    (0 <= k /\ length s = length bones /\
     forall i, (i < Z.to_nat k)%nat -> entry_assigned h o s (Z.to_nat k) i) ->
    remap_step h o k s f q = inr (s', q') ->
    0 <= k + 1 /\ length s' = length bones /\
    forall i, (i < Z.to_nat (k + 1))%nat ->
              entry_assigned h o s' (Z.to_nat (k + 1)) i).
  { intros k s q s' q' (Hk & Hlen & Hprev) Hrun.
    apply remap_step_inv in Hrun
      as (ovk & hvk & jk & bk & Hovk & Hhvk & Hjk & Hbk & -> & _); [|done].
    split; [lia|]. split; [by rewrite length_insert|].
    intros i Hi. unfold entry_assigned. rewrite length_insert.
    destruct (decide (i = Z.to_nat k)) as [->|Hne].
    - exists ovk, hvk, jk, (set_parent hvk bk). repeat split; try done.
      apply list_lookup_insert_eq. by eapply lookup_lt_Some.
    - destruct (Hprev i) as (ov & hv & j & b & Hov & Hhv & Hj & Hb & Hlast);
        [lia|].
      destruct (decide (j = jk)) as [->|Hj'].
      + exists ov, hv, jk, (set_parent hvk bk). repeat split; try done.
        * apply list_lookup_insert_eq. by eapply lookup_lt_Some.
        * intros Hlater. exfalso.
          apply (Hlater (Z.to_nat k) ovk); [lia|done|]. congruence.
      + exists ov, hv, j, b. repeat split; try done.
        * by rewrite list_lookup_insert_ne.
        * intros Hlater. apply Hlast. intros i' ov' Hi' Hov'.
          apply (Hlater i' ov'); [lia|done]. }
  specialize (Hinv Hstep n 0 bones p bones' p').
  destruct Hinv as (_ & _ & Hall); [|done|].
  - split; [done|]. split; [done|]. intros i Hi. lia.
  - intros i Hi. replace n with (Z.to_nat (0 + Z.of_nat n)) at 1 by lia.
    apply Hall. lia.
Qed.

Lemma comprehension_length {A} (e : Z -> M A) (f : File) (n : nat) :
  forall i p l p', comprehension e i n f p = inr (l, p') -> length l = n.
Proof.
  induction n as [|n IH]; intros i p l p' H.
  - cbn in H. unfold ret in H. by simplify_eq.
  - cbn [comprehension] in H. invert_run H. unfold ret in H. simplify_eq.
    cbn. f_equal. eauto.
Qed.

(** A run of the constructor that returned went through the remap loop, from
    a list of [boneCount] bones, and built [parents] apart from it. *)
Lemma Skeleton_init_inv (boneCount : Z) (f : File) (p p' : Z) (sk : Skeleton.t) :
  Skeleton_init boneCount f p = inr (sk, p') ->
  exists bones0 p1,
    for_range boneCount
      (remap_step (Skeleton.hierarchy sk) (Skeleton.hierarchyOrder sk))
      bones0 f p1 = inr (Skeleton.bones sk, p') /\
    length bones0 = Z.to_nat boneCount /\
    length (Skeleton.hierarchy sk) = Z.to_nat boneCount /\
    length (Skeleton.hierarchyOrder sk) = Z.to_nat boneCount /\
    Skeleton.parents sk = replicate (Z.to_nat boneCount) (-1).
Proof.
  intros H. unfold Skeleton_init in H. invert_run H.
  unfold ret in H. simplify_eq. cbn.
  match goal with
  | E : list_comp _ (fun _ => ret _) _ _ = _ |- _ =>
      unfold list_comp in E; rewrite const_comprehension in E; simplify_eq
  end.
  match goal with
  | E : for_range _ read_bone _ _ _ = inr (?bs, ?q) |- _ =>
      exists bs, q; split; [done|]; split; [by apply read_bones_length in E|]
  end.
  unfold list_comp in *.
  repeat split; try done; by eapply comprehension_length.
Qed.

(** ** Which errors a decoder can end with *)

Create HintDb raises.

Lemma raises_only_ret P {A} (a : A) : raises_only P (ret a).
Proof. intros f p e. unfold ret. done. Qed.

Lemma raises_only_bind P {A B} (m : M A) (k : A -> M B) :
  raises_only P m -> (forall a, raises_only P (k a)) ->
  raises_only P (bind m k).
Proof.
  intros Hm Hk f p e. unfold bind.
  destruct (m f p) as [e'|[a p1]] eqn:E.
  - intros. simplify_eq. by eapply Hm.
  - apply Hk.
Qed.

Lemma raises_only_for_loop P {St} (body : Z -> St -> M St) (n : nat) :
  (forall i s, raises_only P (body i s)) ->
  forall i s, raises_only P (for_loop body i n s).
Proof.
  intros Hbody. induction n as [|n IH]; intros i s; cbn [for_loop].
  - apply raises_only_ret.
  - apply raises_only_bind; [apply Hbody|]. intros s'. apply IH.
Qed.

Lemma raises_only_comprehension P {A} (e : Z -> M A) (n : nat) :
  (forall i, raises_only P (e i)) ->
  forall i, raises_only P (comprehension e i n).
Proof.
  intros He. induction n as [|n IH]; intros i; cbn [comprehension].
  - apply raises_only_ret.
  - apply raises_only_bind; [apply He|]. intros x.
    apply raises_only_bind; [apply IH|]. intros xs. apply raises_only_ret.
Qed.

Lemma reader_error_read (n : nat) : raises_only reader_error (read n).
Proof.
  intros f p e. unfold read. cbv zeta. destruct (_ <? _)%nat; [|done].
  intros. simplify_eq. by left.
Qed.

Lemma reader_error_read_signed (w : nat) :
  raises_only reader_error (read_signed w).
Proof.
  apply raises_only_bind; [apply reader_error_read|].
  intros. apply raises_only_ret.
Qed.

Lemma reader_error_ReadFloat : raises_only reader_error ReadFloat.
Proof.
  apply raises_only_bind; [apply reader_error_read|].
  intros. apply raises_only_ret.
Qed.

Lemma reader_error_seek (t : Z) : raises_only reader_error (seek t).
Proof.
  intros f p e. unfold seek. destruct (_ <? _); [|done].
  intros. simplify_eq. right. by left.
Qed.

Lemma reader_error_seek_cur (d : Z) : raises_only reader_error (seek_cur d).
Proof.
  intros f p e. unfold seek_cur. destruct (_ <? _); [|done].
  intros. simplify_eq. right. by left.
Qed.

Lemma reader_error_tell : raises_only reader_error tell.
Proof. intros f p e. unfold tell. done. Qed.

Lemma reader_error_py_getitem {A} (l : list A) (k : Z) :
  raises_only reader_error (py_getitem l k).
Proof.
  intros f p e. unfold py_getitem, raise, ret.
  destruct (py_index _ _) as [j|]; [destruct (l !! j)|];
    intros; simplify_eq; by do 2 right.
Qed.

Lemma reader_error_py_update {A} (l : list A) (k : Z) (upd : A -> A) :
  raises_only reader_error (py_update l k upd).
Proof.
  intros f p e. unfold py_update, raise, ret.
  destruct (py_index _ _) as [j|]; [destruct (l !! j)|];
    intros; simplify_eq; by do 2 right.
Qed.

#[local] Hint Resolve raises_only_ret reader_error_read reader_error_read_signed
  reader_error_ReadFloat reader_error_seek reader_error_seek_cur
  reader_error_tell reader_error_py_getitem reader_error_py_update : raises.

Ltac raises_step :=
  first
    [ solve [eauto with raises]
    | apply raises_only_bind; [| intros ?]
    | apply raises_only_for_loop; intros ? ?
    | apply raises_only_comprehension; intros ? ].

Lemma reader_error_Skeleton_init (boneCount : Z) :
  raises_only reader_error (Skeleton_init boneCount).
Proof.
  unfold Skeleton_init, list_comp, for_range, read_bone, remap_step,
    ReadSInt32, ReadByte.
  repeat raises_step.
Qed.

(** ** Triangle strips *)

Lemma unroll_restart (st : strip_state) (s1 s2 : list strip_entry) :
  unroll st (s1 ++ Skip :: s2) = unroll st s1 ++ unroll strip_start s2.
Proof.
  revert st. induction s1 as [|e s1 IH]; intros st; [done|].
  cbn [app unroll]. by rewrite IH, app_assoc.
Qed.

Lemma unroll_run_length (l : list Z) :
  forall st,
    length (unroll st (Index <$> l)) =
    (window_size (window st) + length l - 2)%nat.
Proof.
  induction l as [|v l IH]; intros [w fl].
  - by destruct w.
  - cbn [fmap list_fmap unroll]. rewrite length_app, IH.
    destruct w; cbn; lia.
Qed.

(** In a run without skips, the triangle number [i] is made of three
    consecutive indices and is flipped exactly when [i] is odd. *)
Lemma unroll_run_lookup (l : list Z) :
  forall p q fl i a b c,
    (p :: q :: l) !! i = Some a ->
    (p :: q :: l) !! S i = Some b ->
    (p :: q :: l) !! S (S i) = Some c ->
    unroll {| window := W2 p q; flipped := fl |} (Index <$> l) !! i =
    Some (oriented (xorb fl (Nat.odd i)) a b c).
Proof.
  induction l as [|v l IH]; intros p q fl i a b c Ha Hb Hc.
  - destruct i as [|[|i]]; done.
  - cbn [fmap list_fmap unroll strip_step window flipped fst snd app].
    destruct i as [|i].
    + cbn in *. simplify_eq. by rewrite xorb_false_r.
    + change (unroll {| window := W2 q v; flipped := negb fl |}
                (Index <$> l) !! i =
              Some (oriented (xorb fl (Nat.odd (S i))) a b c)).
      rewrite (IH q v (negb fl) i a b c) by assumption.
      rewrite Nat.odd_succ, <- Nat.negb_odd. by destruct fl, (Nat.odd i).
Qed.

(** * The statements of the specification *)

Lemma remap_step_ok (h o : list Z) (i ov hv : Z) (j : nat)
    (bs : list Bone.t) (f : File) (q : Z) :
  0 <= i ->
  o !! Z.to_nat i = Some ov -> h !! Z.to_nat i = Some hv ->
  py_index (length bs) ov = Some j ->
  exists b0, bs !! j = Some b0 /\
    remap_step h o i bs f q = inr (<[j := set_parent hv b0]> bs, q).
Proof.
  intros Hi Ho Hh Hj.
  destruct (py_update_ok bs ov j (set_parent hv) f q Hj) as (b0 & Hb0 & Hupd).
  exists b0. split; [done|]. unfold remap_step, bind.
  by rewrite (py_getitem_ok h i hv), (py_getitem_ok o i ov).
Qed.

Lemma last_naming_entry (o : list Z) (len j : nat) (n : nat) :
  forall i, (i < n)%nat -> names_bone o len j i = true ->
    exists k, (i <= k < n)%nat /\ names_bone o len j k = true /\
              forall i', (k < i' < n)%nat -> names_bone o len j i' = false.
Proof.
  induction n as [|n IH]; intros i Hi Hnames; [lia|].
  destruct (names_bone o len j n) eqn:Hn.
  - exists n. repeat split; [lia|lia|done|]. intros i' Hi'. lia.
  - assert (i <> n) by congruence.
    destruct (IH i ltac:(lia) Hnames) as (k & Hk & Hnk & Hlater).
    exists k. repeat split; [lia|lia|done|]. intros i' Hi'.
    destruct (decide (i' = n)) as [->|]; [done|]. apply Hlater. lia.
Qed.

Lemma names_bone_true (o : list Z) (len j k : nat) :
  names_bone o len j k = true <->
  exists ov, o !! k = Some ov /\ py_index len ov = Some j.
Proof.
  unfold names_bone. destruct (o !! k) as [ov|]; split.
  - intros H%bool_decide_eq_true. eauto.
  - intros (ov' & ? & ?). simplify_eq. by apply bool_decide_eq_true.
  - done.
  - by intros (ov' & ? & ?).
Qed.

Lemma names_bone_false (o : list Z) (len j k : nat) (ov : Z) :
  names_bone o len j k = false -> o !! k = Some ov ->
  py_index len ov <> Some j.
Proof.
  unfold names_bone. intros H Hov. rewrite Hov in H.
  by apply bool_decide_eq_false in H.
Qed.

(** C1, as the code has it.  Parent reconstruction goes through the order
    table.  For every skeleton the constructor returns and every [i] below
    the bone count, the bone that [hierarchyOrder[i]] names (Python indexing)
    ends with the parent [hierarchy[k]], where [k] is the last position at or
    after [i] whose order entry names that bone: it is [hierarchy[i]] when no
    later entry names the same bone.  With [hierarchy = [2, -1, 0]] and
    [hierarchyOrder = [1, 2, 0]] the parents of bones 0, 1, 2 are 0, 2,
    -1. *)
Theorem skeleton_parents_follow_order (boneCount : Z) (f : File) (p p' : Z)
    (sk : Skeleton.t) :
  Skeleton_init boneCount f p = inr (sk, p') ->
  (forall i, (i < Z.to_nat boneCount)%nat ->
     exists ov hv j b,
       Skeleton.hierarchyOrder sk !! i = Some ov /\
       Skeleton.hierarchy sk !! i = Some hv /\
       py_index (length (Skeleton.bones sk)) ov = Some j /\
       Skeleton.bones sk !! j = Some b /\
       (exists k ovk hvk,
          (i <= k < Z.to_nat boneCount)%nat /\
          Skeleton.hierarchyOrder sk !! k = Some ovk /\
          py_index (length (Skeleton.bones sk)) ovk = Some j /\
          Skeleton.hierarchy sk !! k = Some hvk /\
          (forall i' ov', (k < i' < Z.to_nat boneCount)%nat ->
             Skeleton.hierarchyOrder sk !! i' = Some ov' ->
             py_index (length (Skeleton.bones sk)) ov' <> Some j) /\
          Bone.parent b = Some hvk) /\
       ((forall i' ov', (i < i' < Z.to_nat boneCount)%nat ->
           Skeleton.hierarchyOrder sk !! i' = Some ov' ->
           py_index (length (Skeleton.bones sk)) ov' <> Some j) ->
        Bone.parent b = Some hv)) /\
  (Skeleton.hierarchy sk = [2; -1; 0] ->
   Skeleton.hierarchyOrder sk = [1; 2; 0] ->
   Bone.parent <$> Skeleton.bones sk = [Some 0; Some 2; Some (-1)]).
Proof.
  intros Hrun.
  destruct (Skeleton_init_inv _ _ _ _ _ Hrun)
    as (bones0 & p1 & Hloop & Hlen0 & Hlenh & Hleno & _).
  unfold for_range in Hloop. split.
  - intros i Hi.
    destruct (remap_loop_parents _ _ _ _ _ _ _ _ Hloop i Hi)
      as (ov & hv & j & b & Hov & Hhv & Hj & Hb & Hlast).
    exists ov, hv, j, b. repeat split; try done.
    destruct (last_naming_entry (Skeleton.hierarchyOrder sk)
                (length (Skeleton.bones sk)) j (Z.to_nat boneCount) i Hi)
      as (k & Hk & Hnk & Hlater).
    { apply names_bone_true. eauto. }
    destruct (remap_loop_parents _ _ _ _ _ _ _ _ Hloop k ltac:(lia))
      as (ovk & hvk & jk & bk & Hovk & Hhvk & Hjk & Hbk & Hlastk).
    apply names_bone_true in Hnk as (ovk' & Hovk' & Hjk').
    assert (ovk' = ovk) as -> by congruence.
    assert (jk = j) as -> by congruence.
    assert (bk = b) as -> by congruence.
    exists k, ovk, hvk. repeat split; try done; try lia.
    + intros i' ov' Hi' Hov'. by eapply names_bone_false; [apply Hlater|].
    + apply Hlastk. intros i' ov' Hi' Hov'.
      by eapply names_bone_false; [apply Hlater|].
  - intros Hh Ho. rewrite Hh, Ho in *. cbn in Hleno.
    rewrite <- Hleno in *.
    destruct bones0 as [|b0 [|b1 [|b2 [|]]]]; try done.
    clear Hrun Hh Ho. generalize dependent (Skeleton.bones sk).
    intros bones Hloop. vm_compute in Hloop.
    injection Hloop as Hbones _. by rewrite <- Hbones.
Qed.

Lemma skeleton_parents_follow_order_witness :
  Skeleton_init 3 permuted_file 0 = inr (permuted_skeleton, 121) /\
  Bone.parent <$> Skeleton.bones permuted_skeleton
    = [Some 0; Some 2; Some (-1)].
Proof.
  assert (H : Skeleton_init 3 permuted_file 0 = inr (permuted_skeleton, 121))
    by (vm_compute; reflexivity).
  split; [exact H|].
  apply (proj2 (skeleton_parents_follow_order 3 permuted_file 0 121
                  permuted_skeleton H)); reflexivity.
Defined.

(** C1 fails as stated: with [hierarchy = [2, -1, 1]] and
    [hierarchyOrder = [0, 1, -3]] the entries 0 and 2 both name bone 0, and
    bone 0 ends with parent 1, not with [hierarchy[0] = 2]. *)
Lemma repeated_order_overwrites_parent :
  Skeleton_init 3 repeated_order_file 0 = inr (repeated_skeleton, 121) /\
  Skeleton.hierarchyOrder repeated_skeleton !! 0%nat = Some 0 /\
  Skeleton.hierarchy repeated_skeleton !! 0%nat = Some 2 /\
  py_index (length (Skeleton.bones repeated_skeleton)) 0 = Some 0%nat /\
  (Bone.parent <$> Skeleton.bones repeated_skeleton !! 0%nat) = Some (Some 1) /\
  ~ (forall (boneCount : Z) (f : File) (p p' : Z) (sk : Skeleton.t),
       Skeleton_init boneCount f p = inr (sk, p') ->
       forall i, (i < Z.to_nat boneCount)%nat ->
         exists ov hv j b,
           Skeleton.hierarchyOrder sk !! i = Some ov /\
           Skeleton.hierarchy sk !! i = Some hv /\
           py_index (length (Skeleton.bones sk)) ov = Some j /\
           Skeleton.bones sk !! j = Some b /\
           Bone.parent b = Some hv).
Proof.
  assert (H : Skeleton_init 3 repeated_order_file 0
              = inr (repeated_skeleton, 121)) by (vm_compute; reflexivity).
  split; [exact H|]. do 4 (split; [reflexivity|]).
  intros Hall.
  destruct (Hall 3 repeated_order_file 0 121 repeated_skeleton H 0%nat
              ltac:(vm_compute; lia))
    as (ov & hv & j & b & Hov & Hhv & Hj & Hb & Hpar).
  vm_compute in Hov, Hhv. simplify_eq.
  vm_compute in Hj. simplify_eq.
  vm_compute in Hb; simplify_eq; try (vm_compute in Hpar; discriminate).
Qed.

(** C2, as the code has it.  The header constructor never inspects the tag:
    it returns the model shell for every file of at least 40 bytes, with the
    four tag bytes stored as they are, and ends with the reader's
    [OutOfBounds] for every shorter file.  No path ends with
    [MalformedHeader]. *)
Theorem header_decoding_ignores_tag (f : File) :
  Model_init f 0 =
    if 40 <=? Z.of_nat (length f)
    then inr (header_at f 0, 40)
    else inl OutOfBounds.
Proof.
  destruct (Z.leb_spec 40 (Z.of_nat (length f))).
  - by rewrite Model_init_ok by lia.
  - by rewrite Model_init_short by lia.
Qed.

(** C2 fails as stated: a 40-byte header whose tag is ["XXXX"], neither
    ["SCM "] nor ["MOD "], decodes to a model shell. *)
Lemma unrecognized_tag_is_accepted :
  recognized_tag (Model.Id (header_at (header_file "XXXX" 2 3) 0)) = false /\
  Model_init (header_file "XXXX" 2 3) 0
    = inr (header_at (header_file "XXXX" 2 3) 0, 40) /\
  Model_init (header_file "XXXX" 2 3) 0 <> inl MalformedHeader.
Proof.
  split; [by vm_compute|].
  rewrite Model_init_ok by (vm_compute; done). done.
Qed.

(** C3, as the code has it.  The constructor ends with the parent assignment
    and checks nothing about the parents it stored: a block that can be read
    and whose order entries index bones always decodes, whatever bytes the
    parent table holds, and a failed decode ends with an error of the reader,
    of [f.seek] or of list indexing, never with [CyclicHierarchy] or
    [InvalidParentIndex]. *)
Theorem skeleton_hierarchy_is_not_validated (f : File) (base boneCount : Z) :
  (block_in_bounds f base boneCount = true ->
   order_in_range f base boneCount = true ->
   exists sk p',
     Skeleton_init boneCount f base = inr (sk, p') /\
     Skeleton.hierarchy sk = table_at f (base + sint_at f 4 base) boneCount) /\
  (forall e, Skeleton_init boneCount f base = inl e ->
             e = OutOfBounds \/ e = SeekError \/ e = IndexError).
Proof.
  split.
  - intros Hb Ho.
    destruct (Skeleton_init_total f base boneCount Hb Ho)
      as (bones & p' & Hrun & _).
    by exists (skeleton_at f base boneCount bones), p'.
  - intros e He. by apply (reader_error_Skeleton_init boneCount f base e).
Qed.

Lemma skeleton_hierarchy_is_not_validated_witness :
  exists sk p',
    Skeleton_init 3 cyclic_file 0 = inr (sk, p') /\
    Skeleton.hierarchy sk = table_at cyclic_file (0 + sint_at cyclic_file 4 0) 3.
Proof.
  apply (proj1 (skeleton_hierarchy_is_not_validated cyclic_file 0 3));
    reflexivity.
Defined.

(** C3 fails as stated: the three-bone skeleton in which bone 0 has parent 1
    and bone 1 has parent 0 decodes, with the cycle in place. *)
Lemma cyclic_skeleton_is_accepted :
  Skeleton_init 3 cyclic_file 0 = inr (cyclic_skeleton, 121) /\
  Bone.parent <$> Skeleton.bones cyclic_skeleton
    = [Some 1; Some 0; Some (-1)] /\
  Skeleton_init 3 cyclic_file 0 <> inl CyclicHierarchy.
Proof.
  assert (H : Skeleton_init 3 cyclic_file 0 = inr (cyclic_skeleton, 121))
    by (vm_compute; reflexivity).
  split; [exact H|]. split; [reflexivity|]. by rewrite H.
Qed.

(** C4, as the code has it.  After the mesh constructor, [positions] holds
    one placeholder (the class [Vector]) per vertex of the header's vertex
    count, none when that count is not positive; the other buffer lists
    (normals, UVs, bone indices, weights, vertex colours, skip flags, faces)
    are empty; the vertex-group list holds [None] once per bone of the global
    model, none when its bone count is negative. *)
Theorem mesh_buffers_after_init (g : option Model.t) (meshIdx : Z) (f : File)
    (p p' : Z) (m : Mesh.t) :
  Mesh_init g meshIdx f p = inr (m, p') ->
  exists model,
    g = Some model /\
    Mesh.positions m = replicate (Z.to_nat (Mesh.vertCount m)) VectorClass /\
    Mesh.normals m = [] /\ Mesh.UVs m = [] /\ Mesh.boneIndicies m = [] /\
    Mesh.boneWeights m = [] /\ Mesh.vertColour m = [] /\
    Mesh.triSkip m = [] /\ Mesh.faces m = [] /\
    Mesh.vertGrp m = replicate (Z.to_nat (Model.boneCount model)) None.
Proof.
  intros H. unfold Mesh_init in H. destruct g as [model|].
  - exists model. split; [done|]. invert_run H.
    unfold global_model, ret in *. by simplify_eq.
  - exfalso. invert_run H. unfold global_model, raise in *. done.
Qed.

Lemma mesh_buffers_after_init_witness :
  exists model,
    Some (sample_model "MOD " 3) = Some model /\
    Mesh.positions (mesh_at (sample_model "MOD " 3) mesh_file 0 0)
      = replicate
          (Z.to_nat (Mesh.vertCount (mesh_at (sample_model "MOD " 3) mesh_file 0 0)))
          VectorClass /\
    Mesh.normals (mesh_at (sample_model "MOD " 3) mesh_file 0 0) = [] /\
    Mesh.UVs (mesh_at (sample_model "MOD " 3) mesh_file 0 0) = [] /\
    Mesh.boneIndicies (mesh_at (sample_model "MOD " 3) mesh_file 0 0) = [] /\
    Mesh.boneWeights (mesh_at (sample_model "MOD " 3) mesh_file 0 0) = [] /\
    Mesh.vertColour (mesh_at (sample_model "MOD " 3) mesh_file 0 0) = [] /\
    Mesh.triSkip (mesh_at (sample_model "MOD " 3) mesh_file 0 0) = [] /\
    Mesh.faces (mesh_at (sample_model "MOD " 3) mesh_file 0 0) = [] /\
    Mesh.vertGrp (mesh_at (sample_model "MOD " 3) mesh_file 0 0)
      = replicate (Z.to_nat (Model.boneCount model)) None.
Proof.
  apply (mesh_buffers_after_init (Some (sample_model "MOD " 3)) 0 mesh_file 0 80).
  vm_compute. reflexivity.
Defined.

(** C4 fails as stated: with a vertex count of 3 the constructor leaves three
    entries in [positions]. *)
Lemma mesh_positions_are_preallocated :
  exists m,
    Mesh_init (Some (sample_model "MOD " 3)) 0 mesh_file 0 = inr (m, 80) /\
    Mesh.vertCount m = 3 /\
    Mesh.positions m = [VectorClass; VectorClass; VectorClass] /\
    Mesh.positions m <> [].
Proof.
  exists (mesh_at (sample_model "MOD " 3) mesh_file 0 0).
  split; [by vm_compute|]. by vm_compute.
Qed.

Lemma lookup_fmap_seqZ {A} (v : Z -> A) (n : Z) (i : nat) :
  (i < Z.to_nat n)%nat -> (v <$> seqZ 0 n) !! i = Some (v (Z.of_nat i)).
Proof.
  intros Hi. rewrite list_lookup_fmap, lookup_seqZ_lt by lia. done.
Qed.

(** C5. A mesh header is 80 bytes: vertex count and texture index (2 bytes
    each) at 0 and 2, 12 bytes skipped, the positions, normals and UVs offsets
    (8 bytes each) at 16, 24 and 32; then, when the global model is not tagged
    ["SCM "], the bone-index and weight offsets at 40 and 48 and 8 bytes
    skipped, and when it is, 16 bytes skipped and one offset at 56; then the
    8-byte scalar at 64 and 8 bytes skipped.  [ParseMeshes] seeks once, to the
    object's mesh-table offset, and header [k] is the one found 80 * k bytes
    further. *)
Theorem mesh_headers_layout (model : Model.t) (self : Object.t) (f : File)
    (p : Z) :
  table_in_bounds f (Object.mshOffs self) (Object.meshCount self) 80 72 = true ->
  (forall i q, 0 <= q -> q + 72 <= Z.of_nat (length f) ->
     Mesh_init (Some model) i f q = inr (mesh_at model f i q, q + 80)) /\
  Object_ParseMeshes (Some model) self f p =
    inr (set_meshes self
           ((fun k => mesh_at model f k (Object.mshOffs self + 80 * k))
              <$> seqZ 0 (Object.meshCount self)),
         Object.mshOffs self + 80 * Z.max 0 (Object.meshCount self)).
Proof.
  intros [Hoffs Hlen]%table_in_bounds_spec.
  split; [intros i q; apply Mesh_init_ok|].
  unfold Object_ParseMeshes, list_comp. expose.
  rewrite seek_spec by done. expose.
  rewrite (comprehension_stride _ (fun k q => mesh_at model f k q) 80 72 f);
    [|lia| |done|done].
  - rewrite seqZ_to_nat. do 2 f_equal. lia.
  - intros k q Hq Hb. by apply Mesh_init_ok.
Qed.

Lemma mesh_headers_layout_witness :
  (forall i q, 0 <= q -> q + 72 <= Z.of_nat (length model_file) ->
     Mesh_init (Some (sample_model "MOD " 3)) i model_file q
       = inr (mesh_at (sample_model "MOD " 3) model_file i q, q + 80)) /\
  Object_ParseMeshes (Some (sample_model "MOD " 3)) sample_object model_file 0 =
    inr (set_meshes sample_object
           ((fun k => mesh_at (sample_model "MOD " 3) model_file k
                        (Object.mshOffs sample_object + 80 * k))
              <$> seqZ 0 (Object.meshCount sample_object)),
         Object.mshOffs sample_object
           + 80 * Z.max 0 (Object.meshCount sample_object)).
Proof.
  apply (mesh_headers_layout (sample_model "MOD " 3) sample_object model_file 0).
  vm_compute. reflexivity.
Defined.

Lemma same_header_set_objects (self : Model.t) (objs : list Object.t) :
  same_header self (set_objects self objs).
Proof. by repeat split. Qed.

(** C6. [ParseObjects] seeks to 0x40 and reads [objectCount] records of 64
    bytes back to back: mesh count and an unknown byte at 0 and 1, the vertex
    count (2 bytes) at 2, a discarded 4-byte integer, the mesh-table offset
    (8 bytes) at 8, the flags (4 bytes) at 16, 28 bytes skipped, then x, y, z
    and the radius (4-byte floats) at 48, 52, 56 and 60.  The object list of
    the model it returns is the list it was given followed by the records in
    table order; on a model shell the object at list index [i] is record [i]
    of the table and carries [i] as its index. *)
Theorem objects_table_layout (self : Model.t) (f : File) (p : Z) :
  table_in_bounds f 0x40 (Model.objectCount self) 64 64 = true ->
  (forall i q, 0 <= q -> q + 64 <= Z.of_nat (length f) ->
     Object_init i f q = inr (object_at f i q, q + 64)) /\
  exists m,
    Model_ParseObjects self f p =
      inr (m, 0x40 + 64 * Z.max 0 (Model.objectCount self)) /\
    same_header self m /\
    Model.objects m =
      Model.objects self
        ++ ((fun k => object_at f k (0x40 + 64 * k))
              <$> seqZ 0 (Model.objectCount self)) /\
    length (Model.objects m) =
      (length (Model.objects self) + Z.to_nat (Model.objectCount self))%nat /\
    (forall i, (i < Z.to_nat (Model.objectCount self))%nat ->
       exists o,
         Model.objects m !! (length (Model.objects self) + i)%nat = Some o /\
         o = object_at f (Z.of_nat i) (0x40 + 64 * Z.of_nat i) /\
         Object.objectIdx o = Z.of_nat i /\
         (Model.objects self = [] -> Model.objects m !! i = Some o)).
Proof.
  intros [Hoffs Hlen]%table_in_bounds_spec.
  split; [intros i q; apply Object_init_ok|].
  eexists. split; [|split; [|split; [|split]]].
  - unfold Model_ParseObjects, for_range. expose.
    rewrite seek_spec by done. expose.
    rewrite (for_loop_append_stride _ (fun k q => object_at f k q) 64 64 f);
      [|lia| |done|done].
    + rewrite seqZ_to_nat.
      replace (Z.of_nat (Z.to_nat (Model.objectCount self)))
        with (Z.max 0 (Model.objectCount self)) by lia.
      reflexivity.
    + intros k acc q Hq Hb. unfold bind.
      by rewrite Object_init_ok.
  - apply same_header_set_objects.
  - reflexivity.
  - cbn [Model.objects set_objects].
    by rewrite length_app, length_fmap, length_seqZ.
  - intros i Hi. cbn [Model.objects set_objects].
    exists (object_at f (Z.of_nat i) (0x40 + 64 * Z.of_nat i)).
    assert (Hlook : (Model.objects self
              ++ ((fun k => object_at f k (0x40 + 64 * k))
                    <$> seqZ 0 (Model.objectCount self)))
              !! (length (Model.objects self) + i)%nat
            = Some (object_at f (Z.of_nat i) (0x40 + 64 * Z.of_nat i))).
    { rewrite lookup_app_r by lia.
      replace (length (Model.objects self) + i - length (Model.objects self))%nat
        with i by lia.
      by apply lookup_fmap_seqZ. }
    repeat split; try done.
    intros Hempty. by rewrite Hempty in Hlook |- *.
Qed.

Lemma objects_table_layout_witness :
  exists o,
    (forall m,
       Model_ParseObjects (header_at model_file 0) model_file 40
         = inr (m, 0x40 + 64 * Z.max 0 (Model.objectCount (header_at model_file 0))) ->
       Model.objects m !! 1%nat = Some o) /\
    o = object_at model_file 1 (0x40 + 64 * 1) /\
    Object.objectIdx o = 1.
Proof.
  destruct (objects_table_layout (header_at model_file 0) model_file 40)
    as (_ & m & Hrun & _ & _ & _ & Hidx).
  { vm_compute. reflexivity. }
  destruct (Hidx 1%nat ltac:(vm_compute; lia))
    as (o & _ & Ho & Hi & Hshell).
  exists o. split; [|by split].
  intros m' Hrun'. rewrite Hrun in Hrun'. injection Hrun' as <-.
  by apply Hshell.
Defined.

(** C7. The skeleton constructor reads four 4-byte offsets at the start of
    the block and takes each relative to that start; it reads [boneCount]
    signed bytes from each of the parent, order and child tables; from the
    transform table it reads three floats per bone, 32 bytes apart (12 bytes
    read, 0x14 skipped), and bone [i] of the list carries index [i]. *)
Theorem skeleton_block_layout (f : File) (base boneCount : Z) :
  block_in_bounds f base boneCount = true ->
  order_in_range f base boneCount = true ->
  exists bones p',
    Skeleton_init boneCount f base
      = inr (skeleton_at f base boneCount bones, p') /\
    length bones = Z.to_nat boneCount /\
    (forall i, (i < Z.to_nat boneCount)%nat ->
       exists b,
         bones !! i = Some b /\
         Bone.idx b = Z.of_nat i /\
         Bone.position b =
           [float_at f (base + sint_at f 4 (base + 12) + 32 * Z.of_nat i);
            float_at f (base + sint_at f 4 (base + 12) + 32 * Z.of_nat i + 4);
            float_at f (base + sint_at f 4 (base + 12) + 32 * Z.of_nat i + 8)]).
Proof.
  intros Hb Ho.
  destruct (Skeleton_init_total f base boneCount Hb Ho)
    as (bones & p' & Hrun & _ & Hsame).
  exists bones, p'. split; [done|]. split.
  - apply Forall2_length in Hsame. by rewrite length_bones_at in Hsame.
  - intros i Hi.
    destruct (Forall2_lookup_l _ _ _ i
                (bone_at f (Z.of_nat i)
                   (base + sint_at f 4 (base + 12) + 32 * Z.of_nat i)) Hsame)
      as (b & Hbi & Hpos & Hidx).
    { unfold bones_at. by apply lookup_fmap_seqZ. }
    exists b. by repeat split.
Qed.

Lemma skeleton_block_layout_witness :
  exists bones p',
    Skeleton_init 3 permuted_file 0
      = inr (skeleton_at permuted_file 0 3 bones, p') /\
    length bones = Z.to_nat 3 /\
    (forall i, (i < Z.to_nat 3)%nat ->
       exists b,
         bones !! i = Some b /\
         Bone.idx b = Z.of_nat i /\
         Bone.position b =
           [float_at permuted_file
              (0 + sint_at permuted_file 4 (0 + 12) + 32 * Z.of_nat i);
            float_at permuted_file
              (0 + sint_at permuted_file 4 (0 + 12) + 32 * Z.of_nat i + 4);
            float_at permuted_file
              (0 + sint_at permuted_file 4 (0 + 12) + 32 * Z.of_nat i + 8)]).
Proof.
  apply (skeleton_block_layout permuted_file 0 3); reflexivity.
Defined.

(** C8. Strip unrolling keeps a window of the last two indices that were not
    skipped.  A skip marker empties the window and emits nothing; the first
    two indices of a strip fill the window; every further index emits exactly
    one triangle with the two indices of the window and slides the window;
    the winding alternates from one triangle to the next, the odd ones having
    their first two corners swapped; what follows a skip is unrolled as a
    fresh strip.  A run of [n] indices without skips gives [n - 2] triangles,
    triangle [i] being made of the indices [i], [i + 1], [i + 2] of the run;
    the stream [a, b, c, SKIP, d, e, f] gives the faces [(a, b, c)] and
    [(d, e, f)]. *)
Theorem strip_unrolling :
  (forall st, strip_step st Skip = (strip_start, [])) /\
  (forall fl v,
     strip_step {| window := W0; flipped := fl |} (Index v) =
       ({| window := W1 v; flipped := fl |}, [])) /\
  (forall p fl v,
     strip_step {| window := W1 p; flipped := fl |} (Index v) =
       ({| window := W2 p v; flipped := fl |}, [])) /\
  (forall p q fl v,
     strip_step {| window := W2 p q; flipped := fl |} (Index v) =
       ({| window := W2 q v; flipped := negb fl |},
        [if fl then (q, p, v) else (p, q, v)])) /\
  (forall s1 s2, triangles (s1 ++ Skip :: s2) = triangles s1 ++ triangles s2) /\
  (forall l, length (triangles (Index <$> l)) = (length l - 2)%nat) /\
  (forall l i a b c,
     l !! i = Some a -> l !! S i = Some b -> l !! S (S i) = Some c ->
     triangles (Index <$> l) !! i
       = Some (if Nat.odd i then (b, a, c) else (a, b, c))) /\
  (forall a b c d e,
     triangles [Index a; Index b; Index c; Index d; Index e]
       = [(a, b, c); (c, b, d); (c, d, e)]) /\
  (forall a b c d e f,
     triangles [Index a; Index b; Index c; Skip; Index d; Index e; Index f]
       = [(a, b, c); (d, e, f)]).
Proof.
  repeat split.
  - intros s1 s2. apply unroll_restart.
  - intros l. unfold triangles. by rewrite unroll_run_length.
  - intros l i a b c Ha Hb Hc.
    destruct l as [|p [|q l]]; [done|destruct i; done|].
    unfold triangles. cbn [fmap list_fmap unroll strip_step strip_start
                            window flipped fst snd app].
    change (unroll {| window := W2 p q; flipped := false |} (Index <$> l) !! i =
            Some (if Nat.odd i then (b, a, c) else (a, b, c))).
    rewrite (unroll_run_lookup l p q false i a b c) by done.
    unfold oriented. cbn [xorb]. done.
Qed.

Lemma strip_unrolling_witness :
  triangles (Index <$> [10; 11; 12; 13]) !! 1%nat = Some (12, 11, 13).
Proof.
  apply (proj1 (proj2 (proj2 (proj2 (proj2 (proj2 (proj2 strip_unrolling))))))
           [10; 11; 12; 13] 1%nat 11 12 13); reflexivity.
Defined.

(** C9. The mesh constructor is not a function of its file, cursor and index
    alone.  It reads the global model: with no global assigned it raises; on
    the same bytes at the same cursor two globals give the same mesh exactly
    when they agree on "the tag is ["SCM "]" and on the number of vertex
    groups their bone count gives; the tag alone decides which offsets are
    read, and the bone count the size of the vertex-group list. *)
Theorem mesh_init_reads_global_model (g1 g2 : Model.t) (meshIdx : Z) (f : File)
    (p : Z) :
  0 <= p -> p + 72 <= Z.of_nat (length f) ->
  Mesh_init None meshIdx f p = inl NameError /\
  (Mesh_init (Some g1) meshIdx f p = Mesh_init (Some g2) meshIdx f p <->
   String.eqb (Model.Id g1) "SCM " = String.eqb (Model.Id g2) "SCM " /\
   Z.to_nat (Model.boneCount g1) = Z.to_nat (Model.boneCount g2)) /\
  (exists m,
     Mesh_init (Some g1) meshIdx f p = inr (m, p + 80) /\
     length (Mesh.vertGrp m) = Z.to_nat (Model.boneCount g1) /\
     if String.eqb (Model.Id g1) "SCM "
     then Mesh.boneIndiciesOffs m = None /\ Mesh.weightsOffs m = None /\
          Mesh.uknOffs m = Some (sint_at f 8 (p + 56))
     else Mesh.boneIndiciesOffs m = Some (sint_at f 8 (p + 40)) /\
          Mesh.weightsOffs m = Some (sint_at f 8 (p + 48)) /\
          Mesh.uknOffs m = None).
Proof.
  intros Hp Hlen. split; [|split].
  - unfold Mesh_init. do 6 (expose; rewrite_prim; try decide_bound). by expose.
  - rewrite !Mesh_init_ok by done. split.
    + intros Heq. injection Heq as Hb _ _ Hg. split.
      * unfold skinned in Hb.
        by destruct (String.eqb (Model.Id g1) "SCM "),
                    (String.eqb (Model.Id g2) "SCM ").
      * apply (f_equal length) in Hg. by rewrite !length_replicate in Hg.
    + intros [Htag Hbc]. unfold mesh_at, skinned. by rewrite Htag, Hbc.
  - exists (mesh_at g1 f meshIdx p). split; [by apply Mesh_init_ok|].
    split; [apply length_replicate|].
    unfold mesh_at, skinned; cbn.
    by destruct (String.eqb (Model.Id g1) "SCM ").
Qed.

Lemma mesh_init_reads_global_model_witness :
  Mesh_init (Some (sample_model "SCM " 2)) 0 mesh_file 0
    <> Mesh_init (Some (sample_model "MOD " 3)) 0 mesh_file 0.
Proof.
  intros Heq.
  destruct (mesh_init_reads_global_model
              (sample_model "SCM " 2) (sample_model "MOD " 3) 0 mesh_file 0)
    as (_ & Hiff & _).
  - lia.
  - vm_compute. discriminate.
  - apply Hiff in Heq as [Htag _]. vm_compute in Htag. discriminate.
Defined.

(** C10. The skeleton's [parents] list is built once, as [boneCount] entries
    equal to -1 (none for a negative count), and is what the constructor
    returns: the remap loop writes into the bones only. *)
Theorem skeleton_parents_list_is_constant (boneCount : Z) (f : File)
    (p p' : Z) (sk : Skeleton.t) :
  Skeleton_init boneCount f p = inr (sk, p') ->
  Skeleton.parents sk = replicate (Z.to_nat boneCount) (-1).
Proof.
  intros Hrun.
  by destruct (Skeleton_init_inv _ _ _ _ _ Hrun) as (_ & _ & _ & _ & _ & _ & ?).
Qed.

Lemma skeleton_parents_list_is_constant_witness :
  Skeleton.parents permuted_skeleton = replicate (Z.to_nat 3) (-1).
Proof.
  apply (skeleton_parents_list_is_constant 3 permuted_file 0 121).
  vm_compute. reflexivity.
Defined.

(** * Further properties of the decoder *)

(** ** Truncated tables *)

Lemma table_in_bounds_false (f : File) (start n stride width : Z) :
  0 <= start ->
  table_in_bounds f start n stride width = false ->
  (0 < Z.to_nat n)%nat /\
  Z.of_nat (length f) < start + stride * (Z.of_nat (Z.to_nat n) - 1) + width.
Proof.
  unfold table_in_bounds. intros Hs H.
  destruct (Z.leb_spec 0 start); [|lia]. cbn in H.
  apply orb_false_elim in H as [H1%Z.leb_gt H2%Z.leb_gt].
  rewrite Z2Nat.id by lia. lia.
Qed.

Lemma seek_negative (t : Z) (f : File) (p : Z) :
  t < 0 -> seek t f p = inl SeekError.
Proof. intros Ht. unfold seek. by destruct (Z.ltb_spec t 0); [|lia]. Qed.

(** A comprehension over a truncated table fails at the first element that
    does not fit. *)
Lemma comprehension_stride_short {A} (e : Z -> M A) (v : Z -> Z -> A)
    (stride need : Z) (f : File) :
  0 <= stride ->
  (forall i p, 0 <= p -> p + need <= Z.of_nat (length f) ->
               e i f p = inr (v i p, p + stride)) ->
  (forall i p, 0 <= p -> Z.of_nat (length f) < p + need ->
               e i f p = inl OutOfBounds) ->
  forall (n : nat) (i p : Z),
    0 <= p -> (0 < n)%nat ->
    Z.of_nat (length f) < p + stride * (Z.of_nat n - 1) + need ->
    comprehension e i n f p = inl OutOfBounds.
Proof.
  intros Hs Hok Hshort n. induction n as [|n IH]; intros i p Hp Hn Hlen; [lia|].
  cbn [comprehension]. unfold bind at 1.
  destruct (Z.le_gt_cases (p + need) (Z.of_nat (length f))) as [Hfit|Hcut].
  - rewrite Hok by done. unfold bind at 1.
    rewrite IH; [done|lia| |]; destruct n; cbn in *; nia.
  - by rewrite Hshort by lia.
Qed.

Lemma for_loop_append_stride_short {A} (body : Z -> list A -> M (list A))
    (v : Z -> Z -> A) (stride need : Z) (f : File) :
  0 <= stride ->
  (forall i acc p, 0 <= p -> p + need <= Z.of_nat (length f) ->
                   body i acc f p = inr (acc ++ [v i p], p + stride)) ->
  (forall i acc p, 0 <= p -> Z.of_nat (length f) < p + need ->
                   body i acc f p = inl OutOfBounds) ->
  forall (n : nat) (i p : Z) (acc : list A),
    0 <= p -> (0 < n)%nat ->
    Z.of_nat (length f) < p + stride * (Z.of_nat n - 1) + need ->
    for_loop body i n acc f p = inl OutOfBounds.
Proof.
  intros Hs Hok Hshort n. induction n as [|n IH]; intros i p acc Hp Hn Hlen; [lia|].
  cbn [for_loop]. unfold bind at 1.
  destruct (Z.le_gt_cases (p + need) (Z.of_nat (length f))) as [Hfit|Hcut].
  - rewrite Hok by done.
    rewrite IH; [done|lia| |]; destruct n; cbn in *; nia.
  - by rewrite Hshort by lia.
Qed.

(** ** The object table *)

Lemma Model_ParseObjects_run (self : Model.t) (f : File) (p : Z) :
  Model_ParseObjects self f p =
    if table_in_bounds f 0x40 (Model.objectCount self) 64 64
    then inr (set_objects self
                (Model.objects self ++ objects_at f (Model.objectCount self)),
              0x40 + 64 * Z.max 0 (Model.objectCount self))
    else inl OutOfBounds.
Proof.
  unfold Model_ParseObjects, for_range, objects_at. expose.
  rewrite seek_spec by done. expose.
  destruct (table_in_bounds _ _ _ _ _) eqn:Hb.
  - apply table_in_bounds_spec in Hb as [_ Hlen].
    rewrite (for_loop_append_stride _ (fun k q => object_at f k q) 64 64 f);
      [|lia| |done|done].
    + rewrite seqZ_to_nat. do 2 f_equal. lia.
    + intros k acc q Hq Hfit. unfold bind. by rewrite Object_init_ok.
  - apply table_in_bounds_false in Hb as [Hn Hlen]; [|done].
    rewrite (for_loop_append_stride_short _ (fun k q => object_at f k q) 64 64 f);
      try done.
    + intros k acc q Hq Hfit. unfold bind. by rewrite Object_init_ok.
    + intros k acc q Hq Hcut. unfold bind. by rewrite Object_init_short.
Qed.

(** X1. [ParseObjects] succeeds exactly when the table of [objectCount]
    records of 64 bytes from 0x40 on fits the file, wherever the cursor was:
    the model it then returns has the header fields and the skeleton of the
    one it was given, and for object list the given list followed by the
    decoded records; it ends with [OutOfBounds] when the table is cut
    short. *)
Theorem ParseObjects_succeeds_iff_table_fits (self : Model.t) (f : File) (p : Z) :
  (table_in_bounds f 0x40 (Model.objectCount self) 64 64 = true ->
   exists m,
     Model_ParseObjects self f p =
       inr (m, 0x40 + 64 * Z.max 0 (Model.objectCount self)) /\
     Model.objects m =
       Model.objects self ++ objects_at f (Model.objectCount self) /\
     same_header self m /\
     Model.skeleton m = Model.skeleton self) /\
  (table_in_bounds f 0x40 (Model.objectCount self) 64 64 = false ->
   Model_ParseObjects self f p = inl OutOfBounds).
Proof.
  rewrite Model_ParseObjects_run.
  destruct (table_in_bounds _ _ _ _ _); split; try done.
  intros _. eexists. split; [reflexivity|].
  split; [reflexivity|]. split; [apply same_header_set_objects|reflexivity].
Qed.

Lemma ParseObjects_succeeds_iff_table_fits_witness :
  Model_ParseObjects (header_at model_file 0) (take 191 model_file) 7
    = inl OutOfBounds.
Proof.
  apply (proj2 (ParseObjects_succeeds_iff_table_fits
                  (header_at model_file 0) (take 191 model_file) 7)).
  vm_compute. reflexivity.
Defined.

(** X2. [ParseObjects] is not idempotent: run a second time it appends the
    same records again, so the object at list index [n + i] carries index
    [i]. *)
Theorem ParseObjects_twice (self : Model.t) (f : File) (p : Z) :
  Model.objects self = [] ->
  table_in_bounds f 0x40 (Model.objectCount self) 64 64 = true ->
  exists m p',
    (let! m1 := Model_ParseObjects self in Model_ParseObjects m1) f p
      = inr (m, p') /\
    Model.objects m =
      objects_at f (Model.objectCount self)
        ++ objects_at f (Model.objectCount self) /\
    forall i, (i < Z.to_nat (Model.objectCount self))%nat ->
      exists o,
        Model.objects m !! (Z.to_nat (Model.objectCount self) + i)%nat = Some o /\
        Object.objectIdx o = Z.of_nat i.
Proof.
  intros Hempty Hb. unfold bind.
  rewrite Model_ParseObjects_run, Hb, Model_ParseObjects_run. cbn [Model.objectCount set_objects].
  rewrite Hb. eexists _, _. split; [done|]. cbn [Model.objects set_objects].
  rewrite Hempty. split; [done|]. intros i Hi.
  exists (object_at f (Z.of_nat i) (0x40 + 64 * Z.of_nat i)). split; [|done].
  cbn [app]. rewrite lookup_app_r; unfold objects_at;
    rewrite length_fmap, length_seqZ; [|lia].
  replace (Z.to_nat (Model.objectCount self) + i
           - Z.to_nat (Model.objectCount self))%nat with i by lia.
  by apply lookup_fmap_seqZ.
Qed.

Lemma ParseObjects_twice_witness :
  exists m p',
    (let! m1 := Model_ParseObjects (header_at model_file 0)
     in Model_ParseObjects m1) model_file 0 = inr (m, p') /\
    Model.objects m =
      objects_at model_file (Model.objectCount (header_at model_file 0))
        ++ objects_at model_file (Model.objectCount (header_at model_file 0)) /\
    forall i, (i < Z.to_nat (Model.objectCount (header_at model_file 0)))%nat ->
      exists o,
        Model.objects m
          !! (Z.to_nat (Model.objectCount (header_at model_file 0)) + i)%nat
          = Some o /\
        Object.objectIdx o = Z.of_nat i.
Proof.
  apply (ParseObjects_twice (header_at model_file 0) model_file 0).
  - reflexivity.
  - vm_compute. reflexivity.
Defined.

(** ** Mesh tables *)

(** X3. A mesh header needs 72 readable bytes, not 80: its last 8 bytes are
    skipped by a seek, never read.  With a global model assigned the
    constructor succeeds exactly when those 72 bytes exist and otherwise ends
    with [OutOfBounds]; in both variants it leaves the cursor 80 bytes on. *)
Theorem Mesh_init_exact (model : Model.t) (meshIdx : Z) (f : File) (p : Z) :
  0 <= p ->
  Mesh_init (Some model) meshIdx f p =
    if p + 72 <=? Z.of_nat (length f)
    then inr (mesh_at model f meshIdx p, p + 80)
    else inl OutOfBounds.
Proof.
  intros Hp. destruct (Z.leb_spec (p + 72) (Z.of_nat (length f))).
  - by apply Mesh_init_ok.
  - by apply Mesh_init_short.
Qed.

Lemma Mesh_init_exact_witness :
  Mesh_init (Some (sample_model "SCM " 2)) 0 (take 72 mesh_file) 0 =
    if 0 + 72 <=? Z.of_nat (length (take 72 mesh_file))
    then inr (mesh_at (sample_model "SCM " 2) (take 72 mesh_file) 0 0, 0 + 80)
    else inl OutOfBounds.
Proof.
  apply (Mesh_init_exact (sample_model "SCM " 2) 0 (take 72 mesh_file) 0). lia.
Defined.

(** X4. Before [Import] has assigned the global model the mesh constructor
    cannot return: it reads the 40 bytes of the common prefix first, so it
    ends with [OutOfBounds] when they are missing and with [NameError]
    otherwise. *)
Theorem Mesh_init_without_global (meshIdx : Z) (f : File) (p : Z) :
  0 <= p ->
  Mesh_init None meshIdx f p =
    if p + 40 <=? Z.of_nat (length f) then inl NameError else inl OutOfBounds.
Proof.
  intros Hp. unfold Mesh_init.
  destruct (Z.leb_spec (p + 40) (Z.of_nat (length f))).
  - do 6 (expose; rewrite_prim; try decide_bound). by expose.
  - do 6 (expose; rewrite_prim; try decide_bound). exfalso; lia.
Qed.

Lemma Mesh_init_without_global_witness :
  Mesh_init None 0 mesh_file 0 =
    if 0 + 40 <=? Z.of_nat (length mesh_file)
    then inl NameError else inl OutOfBounds.
Proof. apply (Mesh_init_without_global 0 mesh_file 0). lia. Defined.

Lemma Object_ParseMeshes_run (model : Model.t) (self : Object.t) (f : File)
    (p : Z) :
  Object_ParseMeshes (Some model) self f p =
    if Object.mshOffs self <? 0 then inl SeekError
    else if meshes_in_bounds f self
    then inr (set_meshes self (meshes_at model f self),
              Object.mshOffs self + 80 * Z.max 0 (Object.meshCount self))
    else inl OutOfBounds.
Proof.
  unfold Object_ParseMeshes, list_comp, meshes_in_bounds, meshes_at. expose.
  destruct (Z.ltb_spec (Object.mshOffs self) 0) as [Hneg|Hpos].
  - by rewrite seek_negative.
  - rewrite seek_spec by done. expose.
    destruct (table_in_bounds _ _ _ _ _) eqn:Hb.
    + apply table_in_bounds_spec in Hb as [_ Hlen].
      rewrite (comprehension_stride _ (fun k q => mesh_at model f k q) 80 72 f);
        [|lia| |done|done].
      * rewrite seqZ_to_nat. do 2 f_equal. lia.
      * intros k q Hq Hfit. by apply Mesh_init_ok.
    + apply table_in_bounds_false in Hb as [Hn Hlen]; [|done].
      rewrite (comprehension_stride_short _ (fun k q => mesh_at model f k q) 80 72 f);
        try done.
      * intros k q Hq Hfit. by apply Mesh_init_ok.
      * intros k q Hq Hcut. by apply Mesh_init_short.
Qed.

Lemma same_record_set_meshes (o : Object.t) (ms : list Mesh.t) :
  same_record o (set_meshes o ms).
Proof. by repeat split. Qed.

(** X5. [Object.ParseMeshes] ends with [SeekError] when the mesh-table offset
    is negative, even for an object without meshes.  With an offset inside
    the file, an object whose mesh count is not positive reads nothing: it
    comes back with an empty mesh list, its record fields unchanged and the
    cursor at the offset; and a table of headers that is cut short ends with
    [OutOfBounds]. *)
Theorem Object_ParseMeshes_edges (model : Model.t) (self : Object.t) (f : File)
    (p : Z) :
  (Object.mshOffs self < 0 ->
   Object_ParseMeshes (Some model) self f p = inl SeekError) /\
  (0 <= Object.mshOffs self <= Z.of_nat (length f) ->
   Object.meshCount self <= 0 ->
   exists o,
     Object_ParseMeshes (Some model) self f p = inr (o, Object.mshOffs self) /\
     Object.meshes o = Some [] /\
     same_record self o) /\
  (0 <= Object.mshOffs self <= Z.of_nat (length f) ->
   0 < Object.meshCount self ->
   Z.of_nat (length f)
     < Object.mshOffs self + 80 * (Object.meshCount self - 1) + 72 ->
   Object_ParseMeshes (Some model) self f p = inl OutOfBounds).
Proof.
  rewrite Object_ParseMeshes_run. unfold meshes_in_bounds, table_in_bounds.
  split; [|split].
  - intros Hneg. by destruct (Z.ltb_spec (Object.mshOffs self) 0); [|lia].
  - intros Hoff Hn. destruct (Z.ltb_spec (Object.mshOffs self) 0); [lia|].
    destruct (Z.leb_spec 0 (Object.mshOffs self)); [|lia].
    destruct (Z.leb_spec (Object.meshCount self) 0); [|lia]. cbn [andb orb].
    unfold meshes_at. rewrite seqZ_nil by done.
    replace (Object.mshOffs self + 80 * Z.max 0 (Object.meshCount self))
      with (Object.mshOffs self) by lia.
    eexists. split; [reflexivity|]. split; [reflexivity|].
    apply same_record_set_meshes.
  - intros Hoff Hn Hcut. destruct (Z.ltb_spec (Object.mshOffs self) 0); [lia|].
    destruct (Z.leb_spec 0 (Object.mshOffs self)); [|lia].
    destruct (Z.leb_spec (Object.meshCount self) 0); [lia|]. cbn.
    by destruct (Z.leb_spec
                   (Object.mshOffs self + 80 * (Object.meshCount self - 1) + 72)
                   (Z.of_nat (length f))); [lia|].
Qed.

Lemma Object_ParseMeshes_edges_witness :
  exists o,
    Object_ParseMeshes (Some (sample_model "MOD " 3))
      (object_at model_file 1 128) model_file 0
      = inr (o, Object.mshOffs (object_at model_file 1 128)) /\
    Object.meshes o = Some [] /\
    same_record (object_at model_file 1 128) o.
Proof.
  apply (proj1 (proj2 (Object_ParseMeshes_edges (sample_model "MOD " 3)
                         (object_at model_file 1 128) model_file 0)));
    by vm_compute.
Defined.

(** ** All mesh tables of a model *)

Lemma mesh_at_set_objects (model : Model.t) (objs : list Object.t) (f : File)
    (i p : Z) :
  mesh_at (set_objects model objs) f i p = mesh_at model f i p.
Proof. done. Qed.

Lemma meshes_at_set_objects (model : Model.t) (objs : list Object.t) (f : File)
    (o : Object.t) :
  meshes_at (set_objects model objs) f o = meshes_at model f o.
Proof. done. Qed.

(** [Model.ParseMeshes] on a list of objects whose tables all fit. *)
Lemma for_each_ParseMeshes_ok (model : Model.t) (f : File)
    (objs : list Object.t) :
  forall p,
    forallb (meshes_in_bounds f) objs = true ->
    for_each (Object_ParseMeshes (Some model)) objs f p =
      inr ((fun o => set_meshes o (meshes_at model f o)) <$> objs,
           cursor_after_meshes p objs).
Proof.
  induction objs as [|o objs IH]; intros p Hall; [done|].
  cbn [forallb] in Hall. apply andb_prop in Hall as [Ho Hall].
  cbn [for_each]. unfold bind at 1. rewrite Object_ParseMeshes_run, Ho.
  destruct (Z.ltb_spec (Object.mshOffs o) 0) as [Hneg|_].
  { apply table_in_bounds_spec in Ho. lia. }
  unfold bind. by rewrite IH.
Qed.

(** ... and on a list in which some table does not. *)
Lemma for_each_ParseMeshes_fails (model : Model.t) (f : File)
    (objs : list Object.t) :
  forall p,
    forallb (meshes_in_bounds f) objs = false ->
    exists e,
      for_each (Object_ParseMeshes (Some model)) objs f p = inl e /\
      (e = SeekError \/ e = OutOfBounds).
Proof.
  induction objs as [|o objs IH]; intros p Hall; [done|].
  cbn [forallb] in Hall. cbn [for_each]. unfold bind at 1.
  rewrite Object_ParseMeshes_run.
  destruct (Z.ltb_spec (Object.mshOffs o) 0) as [Hneg|_]; [by eauto|].
  destruct (meshes_in_bounds f o); [|by eauto].
  cbn in Hall. unfold bind.
  destruct (IH (Object.mshOffs o + 80 * Z.max 0 (Object.meshCount o)) Hall)
    as (e & -> & He).
  by exists e.
Qed.

Lemma mesh_table_fits_in_bounds (f : File) (objs : list Object.t) :
  forallb (mesh_table_fits f) objs = true ->
  forallb (meshes_in_bounds f) objs = true.
Proof.
  induction objs as [|o objs IH]; [done|]. cbn [forallb].
  unfold mesh_table_fits at 1.
  intros [[Ho _]%andb_prop Hall]%andb_prop. by rewrite Ho, IH.
Qed.

(** X6. When the mesh table of every object starts inside the file and can
    be read, [Model.ParseMeshes] returns a model with the same header fields,
    the same skeleton and as many objects, in which object [i] has the record
    fields it had and, for mesh list, the headers of its own table decoded
    with the global model's tag and bone count; when some table cannot be
    sought or read it ends with [SeekError] or [OutOfBounds]. *)
Theorem Model_ParseMeshes_outcome (model self : Model.t) (f : File)
    (p : Z) :
  (forallb (mesh_table_fits f) (Model.objects self) = true ->
   exists m,
     Model_ParseMeshes (Some model) self f p =
       inr (m, cursor_after_meshes p (Model.objects self)) /\
     same_header self m /\
     Model.skeleton m = Model.skeleton self /\
     length (Model.objects m) = length (Model.objects self) /\
     forall i o, Model.objects self !! i = Some o ->
       exists o',
         Model.objects m !! i = Some o' /\
         same_record o o' /\
         Object.meshes o' = Some (meshes_at model f o)) /\
  (forallb (meshes_in_bounds f) (Model.objects self) = false ->
   exists e,
     Model_ParseMeshes (Some model) self f p = inl e /\
     (e = SeekError \/ e = OutOfBounds)).
Proof.
  unfold Model_ParseMeshes, bind. split; intros Hall.
  - apply mesh_table_fits_in_bounds in Hall.
    rewrite for_each_ParseMeshes_ok by done.
    eexists. split; [reflexivity|]. cbn [Model.objects Model.skeleton set_objects].
    split; [apply same_header_set_objects|]. split; [reflexivity|].
    split; [by rewrite length_fmap|].
    intros i o Ho. exists (set_meshes o (meshes_at model f o)).
    split; [by rewrite list_lookup_fmap, Ho|].
    split; [apply same_record_set_meshes|reflexivity].
  - destruct (for_each_ParseMeshes_fails model f _ p Hall) as (e & -> & He).
    by exists e.
Qed.

Lemma Model_ParseMeshes_outcome_witness :
  exists m,
    Model_ParseMeshes (Some (sample_model "MOD " 3))
      (set_objects (header_at model_file 0) (objects_at model_file 2))
      model_file 7 =
      inr (m, cursor_after_meshes 7
                (Model.objects
                   (set_objects (header_at model_file 0)
                      (objects_at model_file 2)))) /\
    same_header
      (set_objects (header_at model_file 0) (objects_at model_file 2)) m /\
    Model.skeleton m =
      Model.skeleton
        (set_objects (header_at model_file 0) (objects_at model_file 2)) /\
    length (Model.objects m) =
      length (Model.objects
                (set_objects (header_at model_file 0)
                   (objects_at model_file 2))) /\
    forall i o,
      Model.objects
        (set_objects (header_at model_file 0) (objects_at model_file 2)) !! i
        = Some o ->
      exists o',
        Model.objects m !! i = Some o' /\
        same_record o o' /\
        Object.meshes o' = Some (meshes_at (sample_model "MOD " 3) model_file o).
Proof.
  apply (proj1 (Model_ParseMeshes_outcome (sample_model "MOD " 3)
                  (set_objects (header_at model_file 0) (objects_at model_file 2))
                  model_file 7)).
  vm_compute. reflexivity.
Defined.

(** ** The first three steps of [Import] *)

(** X7. [Import] decodes the mesh headers with the tag and the bone count of
    the file's own header: when the header, the object table and every mesh
    table fit the file, the header pass, [ParseObjects] and [ParseMeshes]
    together return a model with the header's fields whose object [i] is
    record [i] of the table at 0x40 and carries the mesh headers of its own
    table; each of these has the single offset of the ["SCM "] layout exactly
    when the file's tag is ["SCM "], and as many vertex groups as the header's
    bone count gives. *)
Theorem Import_headers_composes (f : File) :
  40 <= Z.of_nat (length f) ->
  table_in_bounds f 0x40 (Model.objectCount (header_at f 0)) 64 64 = true ->
  forallb (mesh_table_fits f)
    (objects_at f (Model.objectCount (header_at f 0))) = true ->
  exists m p',
    Import_headers f 0 = inr (m, p') /\
    same_header (header_at f 0) m /\
    Model.skeleton m = None /\
    length (Model.objects m) = Z.to_nat (Model.objectCount (header_at f 0)) /\
    forall i, (i < Z.to_nat (Model.objectCount (header_at f 0)))%nat ->
      exists o ms,
        Model.objects m !! i = Some o /\
        same_record (object_at f (Z.of_nat i) (0x40 + 64 * Z.of_nat i)) o /\
        Object.meshes o = Some ms /\
        length ms = Z.to_nat (Object.meshCount o) /\
        forall k mesh, ms !! k = Some mesh ->
          mesh = mesh_at (header_at f 0) f (Z.of_nat k)
                   (Object.mshOffs o + 80 * Z.of_nat k) /\
          (is_Some (Mesh.uknOffs mesh) <-> Model.Id m = "SCM ") /\
          (is_Some (Mesh.boneIndiciesOffs mesh) <-> Model.Id m <> "SCM ") /\
          length (Mesh.vertGrp mesh) = Z.to_nat (Model.boneCount m).
Proof.
  intros Hlen Hobjs Hmeshes. apply mesh_table_fits_in_bounds in Hmeshes.
  unfold Import_headers, bind.
  rewrite Model_init_ok by lia.
  rewrite Model_ParseObjects_run, Hobjs. cbn [Model.objects header_at app].
  unfold Model_ParseMeshes, bind. cbn [Model.objects set_objects].
  rewrite for_each_ParseMeshes_ok by done.
  eexists _, _. split; [reflexivity|].
  cbn [Model.objects Model.skeleton Model.Id Model.boneCount set_objects].
  split; [by repeat split|]. split; [reflexivity|].
  split; [unfold objects_at; by rewrite !length_fmap, length_seqZ|].
  intros i Hi.
  set (o := object_at f (Z.of_nat i) (0x40 + 64 * Z.of_nat i)).
  exists (set_meshes o (meshes_at (header_at f 0) f o)),
         (meshes_at (header_at f 0) f o).
  split.
  { rewrite list_lookup_fmap. unfold objects_at.
    by rewrite lookup_fmap_seqZ. }
  split; [apply same_record_set_meshes|]. split; [reflexivity|].
  split; [unfold meshes_at; by rewrite length_fmap, length_seqZ|].
  intros k mesh Hk. unfold meshes_at in Hk.
  apply list_lookup_fmap_Some in Hk as (kz & -> & Hkz).
  apply lookup_seqZ in Hkz as [-> _].
  replace (0 + Z.of_nat k) with (Z.of_nat k) by lia.
  split; [reflexivity|].
  unfold mesh_at, skinned.
  cbn [Mesh.uknOffs Mesh.boneIndiciesOffs Mesh.vertGrp Model.Id Model.boneCount
       header_at].
  rewrite length_replicate.
  destruct (String.eqb_spec (string_at f 4 0) "SCM ") as [->|Hne]; cbn [negb].
  - repeat split; try done; intros; by eauto.
  - repeat split; try done; intros; by eauto.
Qed.

Lemma Import_headers_composes_witness :
  exists m p',
    Import_headers model_file 0 = inr (m, p') /\
    same_header (header_at model_file 0) m /\
    Model.skeleton m = None /\
    length (Model.objects m)
      = Z.to_nat (Model.objectCount (header_at model_file 0)) /\
    forall i, (i < Z.to_nat (Model.objectCount (header_at model_file 0)))%nat ->
      exists o ms,
        Model.objects m !! i = Some o /\
        same_record
          (object_at model_file (Z.of_nat i) (0x40 + 64 * Z.of_nat i)) o /\
        Object.meshes o = Some ms /\
        length ms = Z.to_nat (Object.meshCount o) /\
        forall k mesh, ms !! k = Some mesh ->
          mesh = mesh_at (header_at model_file 0) model_file (Z.of_nat k)
                   (Object.mshOffs o + 80 * Z.of_nat k) /\
          (is_Some (Mesh.uknOffs mesh) <-> Model.Id m = "SCM ") /\
          (is_Some (Mesh.boneIndiciesOffs mesh) <-> Model.Id m <> "SCM ") /\
          length (Mesh.vertGrp mesh) = Z.to_nat (Model.boneCount m).
Proof.
  apply (Import_headers_composes model_file); by vm_compute.
Defined.

(** ** Which skeleton blocks decode *)

Lemma read_bone_short (i : Z) (acc : list Bone.t) (f : File) (p : Z) :
  0 <= p -> Z.of_nat (length f) < p + 12 ->
  read_bone i acc f p = inl OutOfBounds.
Proof.
  intros Hp Hlen. unfold read_bone. run_decoder. exfalso; lia.
Qed.

Lemma read_table_short (f : File) (p n : Z) :
  0 <= p -> table_in_bounds f p n 1 1 = false ->
  list_comp n (fun _ => ReadByte) f p = inl OutOfBounds.
Proof.
  intros Hp [Hn Hlen]%table_in_bounds_false; [|done]. unfold list_comp.
  apply (comprehension_stride_short _ (fun _ q => sint_at f 1 q) 1 1 f);
    try done.
  - intros _ q Hq Hfit. rewrite ReadByte_spec by done.
    by destruct (Z.leb_spec (q + 1) (Z.of_nat (length f))); [|lia].
  - intros _ q Hq Hcut. rewrite ReadByte_spec by done.
    by destruct (Z.leb_spec (q + 1) (Z.of_nat (length f))); [lia|].
Qed.

Lemma read_bones_short (f : File) (p n : Z) :
  0 <= p -> table_in_bounds f p n 32 12 = false ->
  for_range n read_bone [] f p = inl OutOfBounds.
Proof.
  intros Hp [Hn Hlen]%table_in_bounds_false; [|done]. unfold for_range.
  apply (for_loop_append_stride_short _ (fun k q => bone_at f k q) 32 12 f);
    try done.
  - intros k acc q Hq Hfit. by apply read_bone_ok.
  - intros k acc q Hq Hcut. by apply read_bone_short.
Qed.

(** On a block that can be read the constructor comes down to the remap
    loop. *)
Lemma Skeleton_init_readable (f : File) (base boneCount : Z) :
  block_in_bounds f base boneCount = true ->
  Skeleton_init boneCount f base =
    match
      for_range boneCount
        (remap_step (table_at f (base + sint_at f 4 base) boneCount)
                    (table_at f (base + sint_at f 4 (base + 4)) boneCount))
        (bones_at f (base + sint_at f 4 (base + 12)) boneCount) f
        (base + sint_at f 4 (base + 12) + 32 * Z.max 0 boneCount)
    with
    | inl e => inl e
    | inr (bones, p') => inr (skeleton_at f base boneCount bones, p')
    end.
Proof.
  unfold block_in_bounds.
  intros [[[[[Hb H16]%andb_prop Hh]%andb_prop Ho]%andb_prop Hc]%andb_prop Ht]%andb_prop.
  apply Z.leb_le in Hb, H16.
  pose proof (table_in_bounds_spec _ _ _ _ _ Hh) as [Hh0 _].
  pose proof (table_in_bounds_spec _ _ _ _ _ Ho) as [Ho0 _].
  pose proof (table_in_bounds_spec _ _ _ _ _ Hc) as [Hc0 _].
  pose proof (table_in_bounds_spec _ _ _ _ _ Ht) as [Ht0 _].
  remember (base + sint_at f 4 (base + 12) + 32 * Z.max 0 boneCount)
    as p' eqn:Hp'.
  unfold Skeleton_init, skeleton_at, tell.
  do 4 (expose; rewrite_prim; try decide_bound). expose.
  fold_offsets.
  rewrite seek_spec by done. expose. rewrite (read_table _ _ _ Hh). expose.
  rewrite seek_spec by done. expose. rewrite (read_table _ _ _ Ho). expose.
  rewrite seek_spec by done. expose. rewrite (read_table _ _ _ Hc). expose.
  rewrite seek_spec by done. expose. rewrite (read_bones _ _ _ Ht). expose.
  pose proof (const_comprehension (-1) f (Z.to_nat boneCount) 0) as Hconst.
  cbv beta delta [ret] in Hconst.
  unfold list_comp. rewrite Hconst. expose. rewrite <- Hp'.
  by destruct (for_range _ _ _ _ _) as [e|[bones q]].
Qed.

(** One stage of the constructor: a seek to [base + off], then a table. *)
Ltac seek_stage :=
  match goal with
  | |- context [seek ?t ?f ?p] =>
      destruct (Z.ltb_spec t 0);
      [ rewrite seek_negative by done; expose;
        exists SeekError; split; [reflexivity|by right]
      | rewrite seek_spec by done; expose ]
  end.

Ltac table_stage :=
  match goal with
  | |- context [list_comp ?n (fun _ => ReadByte) ?f ?p] =>
      destruct (table_in_bounds f p n 1 1) eqn:?;
      [ rewrite read_table by done; expose
      | rewrite read_table_short by done; expose;
        exists OutOfBounds; split; [reflexivity|by left] ]
  end.

(** A block that cannot be read ends the constructor with [OutOfBounds] (a
    read past the end) or [SeekError] (a table offset before the start of the
    file). *)
Lemma Skeleton_init_unreadable (f : File) (base boneCount : Z) :
  0 <= base ->
  block_in_bounds f base boneCount = false ->
  exists e,
    Skeleton_init boneCount f base = inl e /\
    (e = OutOfBounds \/ e = SeekError).
Proof.
  intros Hbase Hb. unfold block_in_bounds in Hb.
  destruct (Z.leb_spec (base + 16) (Z.of_nat (length f))) as [H16|H16].
  - unfold Skeleton_init, tell.
    do 4 (expose; rewrite_prim; try decide_bound). expose. fold_offsets.
    seek_stage. table_stage.
    seek_stage. table_stage.
    seek_stage. table_stage.
    seek_stage.
    destruct (table_in_bounds f (base + sint_at f 4 (base + 12)) boneCount 32 12)
      eqn:Ht.
    + exfalso. destruct (Z.leb_spec 0 base); [|lia].
      repeat match goal with
             | H : table_in_bounds _ _ _ _ _ = true |- _ =>
                 rewrite H in Hb; clear H
             end.
      done.
    + rewrite read_bones_short by done. expose.
      exists OutOfBounds. split; [reflexivity|by left].
  - exists OutOfBounds. split; [|by left].
    unfold Skeleton_init, tell. run_decoder. exfalso; lia.
Qed.

Lemma py_index_None (len : nat) (k : Z) :
  ~ (- Z.of_nat len <= k < Z.of_nat len) -> py_index len k = None.
Proof.
  intros Hk. unfold py_index.
  destruct (Z.leb_spec 0 k), (Z.ltb_spec k (Z.of_nat len)); cbn; try lia;
    destruct (Z.leb_spec (- Z.of_nat len) k), (Z.ltb_spec k 0); cbn;
    (done || lia).
Qed.

Lemma forallb_false_lookup {A} (P : A -> bool) (l : list A) :
  forallb P l = false -> exists k x, l !! k = Some x /\ P x = false.
Proof.
  induction l as [|x l IH]; [done|]. cbn [forallb].
  destruct (P x) eqn:Hx.
  - intros (k & y & Hk & Hy)%IH. by exists (S k), y.
  - intros _. by exists 0%nat, x.
Qed.

(** The remap loop ends with [IndexError] at the first order entry that is
    not an index into the bone list. *)
Lemma remap_loop_index_error (h o : list Z) (f : File) (n : nat) :
  forall (i : Z) (bones : list Bone.t) (p : Z),
    0 <= i ->
    (Z.to_nat i + n <= length h)%nat ->
    (Z.to_nat i + n <= length o)%nat ->
    (exists k ov, (Z.to_nat i <= k < Z.to_nat i + n)%nat /\
                  o !! k = Some ov /\ py_index (length bones) ov = None) ->
    for_loop (remap_step h o) i n bones f p = inl IndexError.
Proof.
  induction n as [|n IH]; intros i bones p Hi Hh Ho (k & ov & Hk & Hov & Hbad);
    [lia|].
  destruct (lookup_lt_is_Some_2 h (Z.to_nat i)) as [hv Hhv]; [lia|].
  destruct (lookup_lt_is_Some_2 o (Z.to_nat i)) as [ovi Hovi]; [lia|].
  cbn [for_loop]. unfold bind at 1. unfold remap_step at 1. unfold bind.
  rewrite (py_getitem_ok h i hv), (py_getitem_ok o i ovi) by done.
  destruct (py_index (length bones) ovi) as [j|] eqn:Hj.
  - destruct (py_update_ok bones ovi j (set_parent hv) f p Hj)
      as (b & Hb & ->).
    apply IH; [lia|lia|lia|]. exists k, ov. rewrite length_insert.
    repeat split; try done; try lia.
    destruct (decide (k = Z.to_nat i)) as [->|]; [congruence|lia].
  - unfold py_update. by rewrite Hj.
Qed.

Lemma Skeleton_init_bad_order (f : File) (base boneCount : Z) :
  block_in_bounds f base boneCount = true ->
  order_in_range f base boneCount = false ->
  Skeleton_init boneCount f base = inl IndexError.
Proof.
  intros Hb Hord. rewrite Skeleton_init_readable by done.
  unfold order_in_range in Hord.
  apply forallb_false_lookup in Hord as (k & ov & Hk & Hov).
  pose proof (lookup_lt_Some _ _ _ Hk) as Hklt.
  rewrite length_table_at in Hklt.
  unfold for_range. rewrite remap_loop_index_error; try done.
  - rewrite length_table_at. lia.
  - rewrite length_table_at. lia.
  - exists k, ov. split; [lia|]. split; [done|].
    rewrite length_bones_at. apply py_index_None.
    apply andb_false_iff in Hov as [H1%Z.leb_gt|H2%Z.ltb_ge]; lia.
Qed.

(** X8. The skeleton constructor accepts exactly the blocks whose four
    offsets and four tables lie inside the file and whose order entries are
    Python indices into a list of [boneCount] bones: on every other block it
    ends with an error. *)
Theorem Skeleton_init_accepts_iff (f : File) (base boneCount : Z) :
  0 <= base ->
  ((exists sk p', Skeleton_init boneCount f base = inr (sk, p')) <->
   block_in_bounds f base boneCount = true /\
   order_in_range f base boneCount = true).
Proof.
  intros Hbase. split.
  - intros (sk & p' & Hrun).
    destruct (block_in_bounds f base boneCount) eqn:Hb.
    + destruct (order_in_range f base boneCount) eqn:Ho; [done|].
      by rewrite Skeleton_init_bad_order in Hrun.
    + destruct (Skeleton_init_unreadable f base boneCount Hbase Hb)
        as (e & He & _).
      congruence.
  - intros [Hb Ho].
    destruct (Skeleton_init_total f base boneCount Hb Ho) as (bones & p' & Hrun & _).
    eauto.
Qed.

Lemma Skeleton_init_accepts_iff_witness :
  (exists sk p', Skeleton_init 3 permuted_file 0 = inr (sk, p')) <->
  block_in_bounds permuted_file 0 3 = true /\
  order_in_range permuted_file 0 3 = true.
Proof. apply (Skeleton_init_accepts_iff permuted_file 0 3). lia. Defined.

(** X9. An order entry outside [-boneCount, boneCount) ends the constructor
    with [IndexError], on a block that can otherwise be read; a block that
    cannot be read ends it with [OutOfBounds] or [SeekError] before any bone
    is touched. *)
Theorem Skeleton_init_errors (f : File) (base boneCount : Z) :
  0 <= base ->
  (block_in_bounds f base boneCount = true ->
   order_in_range f base boneCount = false ->
   Skeleton_init boneCount f base = inl IndexError) /\
  (block_in_bounds f base boneCount = false ->
   exists e, Skeleton_init boneCount f base = inl e /\
             (e = OutOfBounds \/ e = SeekError)).
Proof.
  intros Hbase. split.
  - apply Skeleton_init_bad_order.
  - by apply Skeleton_init_unreadable.
Qed.

Lemma Skeleton_init_errors_witness :
  Skeleton_init 3 bad_order_file 0 = inl IndexError.
Proof.
  apply (proj1 (Skeleton_init_errors bad_order_file 0 3 ltac:(lia)));
    reflexivity.
Defined.

(** X10. A model without bones has an empty skeleton: when the bone count is
    not positive the constructor reads the four offsets, seeks to the four
    tables without reading them, and returns empty lists with the cursor at
    the transform table; the tables may lie past the end of the file. *)
Theorem Skeleton_init_no_bones (f : File) (base boneCount : Z) :
  boneCount <= 0 ->
  0 <= base -> base + 16 <= Z.of_nat (length f) ->
  0 <= base + sint_at f 4 base ->
  0 <= base + sint_at f 4 (base + 4) ->
  0 <= base + sint_at f 4 (base + 8) ->
  0 <= base + sint_at f 4 (base + 12) ->
  exists sk,
    Skeleton_init boneCount f base = inr (sk, base + sint_at f 4 (base + 12)) /\
    Skeleton.bones sk = [] /\ Skeleton.hierarchy sk = [] /\
    Skeleton.hierarchyOrder sk = [] /\ Skeleton.childIndices sk = [] /\
    Skeleton.parents sk = [].
Proof.
  intros Hn Hb H16 Hh Ho Hc Ht.
  assert (Hblock : block_in_bounds f base boneCount = true).
  { unfold block_in_bounds, table_in_bounds.
    repeat match goal with
           | |- context [?a <=? ?b] =>
               destruct (Z.leb_spec a b); try lia; cbn
           end;
    done. }
  rewrite Skeleton_init_readable by done.
  unfold for_range, bones_at, skeleton_at, table_at.
  replace (Z.to_nat boneCount) with 0%nat by lia.
  rewrite !seqZ_nil by done. cbn.
  replace (base + sint_at f 4 (base + 12) + 32 * Z.max 0 boneCount)
    with (base + sint_at f 4 (base + 12)) by lia.
  eexists. split; [reflexivity|done].
Qed.

Lemma Skeleton_init_no_bones_witness :
  exists sk,
    Skeleton_init 0 permuted_file 0
      = inr (sk, 0 + sint_at permuted_file 4 (0 + 12)) /\
    Skeleton.bones sk = [] /\ Skeleton.hierarchy sk = [] /\
    Skeleton.hierarchyOrder sk = [] /\ Skeleton.childIndices sk = [] /\
    Skeleton.parents sk = [].
Proof.
  apply (Skeleton_init_no_bones permuted_file 0 0); by vm_compute.
Defined.

(** ** The bones of a decoded skeleton *)

(** The transform loop numbers the bones in list order and leaves them
    without a parent. *)
Lemma read_bones_fresh (f : File) (n : nat) (p p' : Z) (bones : list Bone.t) :
  for_loop read_bone 0 n [] f p = inr (bones, p') ->
  forall j b, bones !! j = Some b ->
              Bone.idx b = Z.of_nat j /\ Bone.parent b = None.
Proof.
  intros H.
  pose proof (for_loop_inv
    (fun k (bs : list Bone.t) (_ : Z) =>
       Z.of_nat (length bs) = k /\
       forall j b, bs !! j = Some b ->
                   Bone.idx b = Z.of_nat j /\ Bone.parent b = None)
    read_bone f) as Hinv.
  assert (Hstep : forall k s q s' q',
    (Z.of_nat (length s) = k /\
     forall j b, s !! j = Some b ->
                 Bone.idx b = Z.of_nat j /\ Bone.parent b = None) ->
    read_bone k s f q = inr (s', q') ->
    Z.of_nat (length s') = k + 1 /\
    forall j b, s' !! j = Some b ->
                Bone.idx b = Z.of_nat j /\ Bone.parent b = None).
  { intros k s q s' q' [Hlen Hall] (b & -> & Hidx & Hpar)%read_bone_inv.
    split; [rewrite length_app; cbn [length]; lia|].
    intros j b' Hj. apply lookup_app_Some in Hj as [Hj|[Hge Hj]].
    - by apply Hall.
    - apply list_lookup_singleton_Some in Hj as [Hj0 ->].
      split; [|done]. rewrite Hidx. lia. }
  destruct (Hinv Hstep n 0 [] p bones p') as [_ Hall]; [|done|done].
  split; [done|]. intros j b Hj. done.
Qed.

(** The remap loop changes parents only: each bone it returns is the bone it
    was given, or carries the parent value of an entry whose order value
    names it. *)
Lemma remap_loop_origin (h o : list Z) (f : File) (n : nat)
    (bones0 bones' : list Bone.t) (p p' : Z) :
  for_loop (remap_step h o) 0 n bones0 f p = inr (bones', p') ->
  Forall2 same_joint bones0 bones' /\
  forall j b, bones' !! j = Some b ->
    bones0 !! j = Some b \/
    exists i ov hv,
      (i < n)%nat /\ o !! i = Some ov /\ h !! i = Some hv /\
      py_index (length bones0) ov = Some j /\ Bone.parent b = Some hv.
Proof.
  intros H.
  pose proof (for_loop_inv
    (fun k (bs : list Bone.t) (_ : Z) =>
       0 <= k /\ Forall2 same_joint bones0 bs /\
       forall j b, bs !! j = Some b ->
         bones0 !! j = Some b \/
         exists i ov hv,
           (i < Z.to_nat k)%nat /\ o !! i = Some ov /\ h !! i = Some hv /\
           py_index (length bones0) ov = Some j /\ Bone.parent b = Some hv)
    (remap_step h o) f) as Hinv.
  assert (Hstep : forall k s q s' q',
    (0 <= k /\ Forall2 same_joint bones0 s /\
     forall j b, s !! j = Some b ->
       bones0 !! j = Some b \/
       exists i ov hv,
         (i < Z.to_nat k)%nat /\ o !! i = Some ov /\ h !! i = Some hv /\
         py_index (length bones0) ov = Some j /\ Bone.parent b = Some hv) ->
    remap_step h o k s f q = inr (s', q') ->
    0 <= k + 1 /\ Forall2 same_joint bones0 s' /\
    forall j b, s' !! j = Some b ->
      bones0 !! j = Some b \/
      exists i ov hv,
        (i < Z.to_nat (k + 1))%nat /\ o !! i = Some ov /\ h !! i = Some hv /\
        py_index (length bones0) ov = Some j /\ Bone.parent b = Some hv).
  { intros k s q s' q' (Hk & Hsame & Hall) Hrun.
    apply remap_step_inv in Hrun
      as (ovk & hvk & jk & bk & Hovk & Hhvk & Hjk & Hbk & -> & _); [|done].
    split; [lia|]. split.
    { eapply same_joint_trans; [done|]. by apply same_joint_insert. }
    intros j b Hj. destruct (decide (jk = j)) as [->|Hne].
    - rewrite list_lookup_insert_eq in Hj by (by eapply lookup_lt_Some).
      simplify_eq. right. exists (Z.to_nat k), ovk, hvk.
      rewrite (Forall2_length _ _ _ Hsame). repeat split; try done. lia.
    - rewrite list_lookup_insert_ne in Hj by done.
      destruct (Hall j b Hj) as [?|(i & ov & hv & Hi & ?)]; [by left|].
      right. exists i, ov, hv. split; [lia|done]. }
  destruct (Hinv Hstep n 0 bones0 p bones' p') as (_ & Hsame & Hall);
    [|done|].
  - split; [done|]. split; [apply same_joint_refl|]. intros j b Hj. by left.
  - split; [done|]. intros j b Hj.
    destruct (Hall j b Hj) as [?|(i & ov & hv & Hi & ?)]; [by left|].
    right. exists i, ov, hv. split; [lia|done].
Qed.

(** A run of the constructor that returned read its bones with the transform
    loop and then went through the remap loop. *)
Lemma Skeleton_init_phases (boneCount : Z) (f : File) (p p' : Z)
    (sk : Skeleton.t) :
  Skeleton_init boneCount f p = inr (sk, p') ->
  exists bones0 q q1,
    for_range boneCount read_bone [] f q = inr (bones0, q1) /\
    for_range boneCount
      (remap_step (Skeleton.hierarchy sk) (Skeleton.hierarchyOrder sk))
      bones0 f q1 = inr (Skeleton.bones sk, p').
Proof.
  intros H. unfold Skeleton_init in H. invert_run H.
  unfold ret in H. simplify_eq. cbn.
  match goal with
  | E : list_comp _ (fun _ => ret _) _ _ = _ |- _ =>
      unfold list_comp in E; rewrite const_comprehension in E; simplify_eq
  end.
  eauto.
Qed.

(** X11. In every skeleton the constructor returns, the bone list has
    [boneCount] entries (none for a negative count), the bone at list index
    [j] carries index [j], and its parent is either still unset or the parent
    value of an entry whose order value names bone [j]; a bone that no order
    entry names keeps an unset parent. *)
Theorem decoded_bones_shape (boneCount : Z) (f : File) (p p' : Z)
    (sk : Skeleton.t) :
  Skeleton_init boneCount f p = inr (sk, p') ->
  length (Skeleton.bones sk) = Z.to_nat boneCount /\
  forall j b, Skeleton.bones sk !! j = Some b ->
    Bone.idx b = Z.of_nat j /\
    (Bone.parent b = None \/
     exists i ov hv,
       Skeleton.hierarchyOrder sk !! i = Some ov /\
       Skeleton.hierarchy sk !! i = Some hv /\
       py_index (Z.to_nat boneCount) ov = Some j /\
       Bone.parent b = Some hv) /\
    ((forall i ov, Skeleton.hierarchyOrder sk !! i = Some ov ->
                   py_index (Z.to_nat boneCount) ov <> Some j) ->
     Bone.parent b = None).
Proof.
  intros Hrun.
  destruct (Skeleton_init_phases _ _ _ _ _ Hrun) as (bones0 & q & q1 & Hread & Hremap).
  unfold for_range in *.
  pose proof (read_bones_length _ _ _ _ _ Hread) as Hlen0.
  pose proof (read_bones_fresh _ _ _ _ _ Hread) as Hfresh.
  destruct (remap_loop_origin _ _ _ _ _ _ _ _ Hremap) as [Hsame Horigin].
  pose proof (Forall2_length _ _ _ Hsame) as Hlen.
  split; [lia|]. intros j b Hj.
  destruct (Forall2_lookup_r _ _ _ _ _ Hsame Hj) as (b0 & Hb0 & _ & Hidx).
  destruct (Hfresh j b0 Hb0) as [Hidx0 _].
  assert (Hcases : Bone.parent b = None \/
     exists i ov hv,
       Skeleton.hierarchyOrder sk !! i = Some ov /\
       Skeleton.hierarchy sk !! i = Some hv /\
       py_index (Z.to_nat boneCount) ov = Some j /\
       Bone.parent b = Some hv).
  { destruct (Horigin j b Hj) as [Hold|(i & ov & hv & _ & Hov & Hhv & Hpy & Hpar)].
    - left. by destruct (Hfresh j b Hold).
    - right. exists i, ov, hv. by rewrite <- Hlen0. }
  split; [congruence|]. split; [done|].
  intros Hnone. destruct Hcases as [?|(i & ov & hv & Hov & _ & Hpy & _)]; [done|].
  by destruct (Hnone i ov Hov).
Qed.

Lemma decoded_bones_shape_witness :
  length (Skeleton.bones permuted_skeleton) = Z.to_nat 3 /\
  forall j b, Skeleton.bones permuted_skeleton !! j = Some b ->
    Bone.idx b = Z.of_nat j /\
    (Bone.parent b = None \/
     exists i ov hv,
       Skeleton.hierarchyOrder permuted_skeleton !! i = Some ov /\
       Skeleton.hierarchy permuted_skeleton !! i = Some hv /\
       py_index (Z.to_nat 3) ov = Some j /\
       Bone.parent b = Some hv) /\
    ((forall i ov, Skeleton.hierarchyOrder permuted_skeleton !! i = Some ov ->
                   py_index (Z.to_nat 3) ov <> Some j) ->
     Bone.parent b = None).
Proof.
  apply (decoded_bones_shape 3 permuted_file 0 121 permuted_skeleton).
  vm_compute. reflexivity.
Defined.

(** ** The skeleton pass of the model *)

Lemma Model_ParseSkeleton_run (self : Model.t) (f : File) (p : Z) :
  Model_ParseSkeleton self f p =
    if Model.skeletonOffs self <? 0 then inl SeekError
    else match Skeleton_init (Model.boneCount self) f (Model.skeletonOffs self) with
         | inl e => inl e
         | inr (sk, q) => inr (set_skeleton self sk, q)
         end.
Proof.
  unfold Model_ParseSkeleton, bind, seek.
  destruct (Model.skeletonOffs self <? 0); [done|].
  by destruct (Skeleton_init _ _ _) as [e|[sk q]].
Qed.

Lemma same_header_set_skeleton (self : Model.t) (sk : Skeleton.t) :
  same_header self (set_skeleton self sk).
Proof. by repeat split. Qed.

(** X12. [ParseSkeleton] ends with [SeekError] when the header's skeleton
    offset is negative, even for a model without bones, and, for an offset
    inside the file, with the constructor's error when the block there does
    not decode.  The model it returns has the header fields and the objects
    of the one it was given, and for skeleton the one the constructor returns
    at that offset, which has the header's bone count and as many bones. *)
Theorem ParseSkeleton_behaviour (self : Model.t) (f : File) (p : Z) :
  (Model.skeletonOffs self < 0 ->
   Model_ParseSkeleton self f p = inl SeekError) /\
  (forall e, 0 <= Model.skeletonOffs self <= Z.of_nat (length f) ->
     Skeleton_init (Model.boneCount self) f (Model.skeletonOffs self) = inl e ->
     Model_ParseSkeleton self f p = inl e) /\
  (forall m p', Model_ParseSkeleton self f p = inr (m, p') ->
     exists sk,
       Model.skeleton m = Some sk /\
       Skeleton_init (Model.boneCount self) f (Model.skeletonOffs self)
         = inr (sk, p') /\
       same_header self m /\
       Model.objects m = Model.objects self /\
       Skeleton.boneCount sk = Model.boneCount self /\
       length (Skeleton.bones sk) = Z.to_nat (Model.boneCount self)).
Proof.
  rewrite Model_ParseSkeleton_run. split; [|split].
  - intros Hneg. by destruct (Z.ltb_spec (Model.skeletonOffs self) 0); [|lia].
  - intros e Hoffs He.
    destruct (Z.ltb_spec (Model.skeletonOffs self) 0); [lia|]. by rewrite He.
  - intros m p' Hrun.
    destruct (Z.ltb_spec (Model.skeletonOffs self) 0); [done|].
    destruct (Skeleton_init _ _ _) as [e|[sk q]] eqn:E; [done|].
    simplify_eq. exists sk. split; [reflexivity|]. split; [reflexivity|].
    split; [apply same_header_set_skeleton|]. split; [reflexivity|].
    destruct (Skeleton_init_inv _ _ _ _ _ E) as (bones0 & p1 & Hloop & Hlen0 & _).
    split.
    + unfold Skeleton_init in E. invert_run E. unfold ret in E. by simplify_eq.
    + unfold for_range in Hloop.
      by rewrite (remap_loop_length _ _ _ _ 0 _ _ _ _ ltac:(lia) Hloop).
Qed.

Lemma ParseSkeleton_behaviour_witness :
  exists sk,
    Model.skeleton
      (set_skeleton (header_at model_file 0) (skeleton_at model_file 192 0 []))
      = Some sk /\
    Skeleton_init (Model.boneCount (header_at model_file 0)) model_file
      (Model.skeletonOffs (header_at model_file 0))
      = inr (sk, 192) /\
    same_header (header_at model_file 0)
      (set_skeleton (header_at model_file 0) (skeleton_at model_file 192 0 [])) /\
    Model.objects
      (set_skeleton (header_at model_file 0) (skeleton_at model_file 192 0 []))
      = Model.objects (header_at model_file 0) /\
    Skeleton.boneCount sk = Model.boneCount (header_at model_file 0) /\
    length (Skeleton.bones sk)
      = Z.to_nat (Model.boneCount (header_at model_file 0)).
Proof.
  apply (proj2 (proj2 (ParseSkeleton_behaviour (header_at model_file 0)
                         model_file 0))
           (set_skeleton (header_at model_file 0)
              (skeleton_at model_file 192 0 [])) 192).
  vm_compute. reflexivity.
Defined.

(** X13. The objects pass and the skeleton pass commute: each starts with an
    absolute seek and writes fields the other does not read, so running them
    in either order from any cursor returns the same model. *)
Theorem ParseObjects_ParseSkeleton_commute (self : Model.t) (f : File)
    (p p0 : Z) (m : Model.t) :
  (exists q,
     (let! m1 := Model_ParseObjects self in Model_ParseSkeleton m1) f p
       = inr (m, q)) <->
  (exists q,
     (let! m1 := Model_ParseSkeleton self in Model_ParseObjects m1) f p0
       = inr (m, q)).
Proof.
  unfold bind. rewrite Model_ParseObjects_run, Model_ParseSkeleton_run.
  destruct (table_in_bounds f 64 (Model.objectCount self) 64 64) eqn:Hb.
  - rewrite Model_ParseSkeleton_run. cbn [Model.skeletonOffs Model.boneCount set_objects].
    destruct (Model.skeletonOffs self <? 0); [by split; intros [? ?]|].
    destruct (Skeleton_init _ _ _) as [e|[sk q1]]; [by split; intros [? ?]|].
    rewrite Model_ParseObjects_run. cbn [Model.objectCount Model.objects set_skeleton].
    rewrite Hb. split; intros [q Hq]; simplify_eq; eauto.
  - destruct (Model.skeletonOffs self <? 0); [by split; intros [? ?]|].
    destruct (Skeleton_init _ _ _) as [e|[sk q1]]; [by split; intros [? ?]|].
    rewrite Model_ParseObjects_run. cbn [Model.objectCount set_skeleton].
    rewrite Hb. by split; intros [? ?].
Qed.

Lemma ParseObjects_ParseSkeleton_commute_witness :
  exists q,
    (let! m1 := Model_ParseSkeleton (header_at model_file 0)
     in Model_ParseObjects m1) model_file 5
      = inr (set_skeleton
               (set_objects (header_at model_file 0) (objects_at model_file 2))
               (skeleton_at model_file 192 0 []), q).
Proof.
  apply (proj1 (ParseObjects_ParseSkeleton_commute
                  (header_at model_file 0) model_file 0 5 _)).
  eexists. vm_compute. reflexivity.
Defined.

(** ** Order entries count from either end *)

Lemma py_index_Some_mod (len : nat) (k : Z) (j : nat) :
  py_index len k = Some j ->
  - Z.of_nat len <= k < Z.of_nat len /\ Z.of_nat j = k mod Z.of_nat len.
Proof.
  unfold py_index. intros H.
  destruct (Z.leb_spec 0 k), (Z.ltb_spec k (Z.of_nat len)); cbn in H.
  - simplify_eq. split; [lia|]. rewrite Z.mod_small by lia. lia.
  - destruct (Z.leb_spec (- Z.of_nat len) k), (Z.ltb_spec k 0);
      cbn in H; simplify_eq; lia.
  - destruct (Z.leb_spec (- Z.of_nat len) k), (Z.ltb_spec k 0);
      cbn in H; simplify_eq; try lia.
    split; [lia|].
    rewrite <- (Z.mod_add k 1 (Z.of_nat len)) by lia.
    rewrite Z.mod_small by lia. lia.
  - destruct (Z.leb_spec (- Z.of_nat len) k), (Z.ltb_spec k 0);
      cbn in H; simplify_eq; lia.
Qed.

(** X14. In every skeleton the constructor returns, each order entry lies in
    [-boneCount, boneCount) and names the bone at list index
    [entry mod boneCount]: a negative entry counts from the end of the bone
    list instead of being refused, so [-1] names the last bone. *)
Theorem order_entries_wrap_around (boneCount : Z) (f : File) (p p' : Z)
    (sk : Skeleton.t) :
  Skeleton_init boneCount f p = inr (sk, p') ->
  forall i, (i < Z.to_nat boneCount)%nat ->
    exists ov hv b,
      Skeleton.hierarchyOrder sk !! i = Some ov /\
      Skeleton.hierarchy sk !! i = Some hv /\
      - boneCount <= ov < boneCount /\
      Skeleton.bones sk !! Z.to_nat (ov mod boneCount) = Some b /\
      ((forall i' ov', (i < i' < Z.to_nat boneCount)%nat ->
          Skeleton.hierarchyOrder sk !! i' = Some ov' ->
          ov' mod boneCount <> ov mod boneCount) ->
       Bone.parent b = Some hv).
Proof.
  intros Hrun i Hi.
  destruct (Skeleton_init_inv _ _ _ _ _ Hrun)
    as (bones0 & p1 & Hloop & Hlen0 & _).
  unfold for_range in Hloop.
  pose proof (remap_loop_length _ _ _ _ 0 _ _ _ _ ltac:(lia) Hloop) as Hlen.
  destruct (remap_loop_parents _ _ _ _ _ _ _ _ Hloop i Hi)
    as (ov & hv & j & b & Hov & Hhv & Hj & Hb & Hlast).
  rewrite Hlen, Hlen0 in Hj, Hlast.
  destruct (py_index_Some_mod _ _ _ Hj) as [Hrange Hmod].
  rewrite Z2Nat.id in Hrange, Hmod by lia.
  exists ov, hv, b. repeat split; try done; try lia.
  - by rewrite <- Hmod, Nat2Z.id.
  - intros Hlater. apply Hlast. intros i' ov' Hi' Hov' Hj'.
    apply py_index_Some_mod in Hj' as [_ Hmod'].
    rewrite Z2Nat.id in Hmod' by lia.
    apply (Hlater i' ov' Hi' Hov'). lia.
Qed.

Lemma order_entries_wrap_around_witness :
  exists sk p',
    Skeleton_init 3 repeated_order_file 0 = inr (sk, p') /\
    exists ov hv b,
      Skeleton.hierarchyOrder sk !! 2%nat = Some ov /\
      Skeleton.hierarchy sk !! 2%nat = Some hv /\
      - 3 <= ov < 3 /\
      Skeleton.bones sk !! Z.to_nat (ov mod 3) = Some b /\
      ((forall i' ov', (2 < i' < Z.to_nat 3)%nat ->
          Skeleton.hierarchyOrder sk !! i' = Some ov' ->
          ov' mod 3 <> ov mod 3) ->
       Bone.parent b = Some hv).
Proof.
  destruct (Skeleton_init 3 repeated_order_file 0) as [e|[sk p']] eqn:E.
  { vm_compute in E. discriminate. }
  exists sk, p'. split; [done|].
  apply (order_entries_wrap_around 3 repeated_order_file 0 p' sk E 2%nat).
  vm_compute. lia.
Defined.

(** ** Running the mesh pass again *)

Lemma cursor_after_meshes_fmap (g : Object.t -> Object.t) (objs : list Object.t) :
  (forall o, Object.mshOffs (g o) = Object.mshOffs o /\
             Object.meshCount (g o) = Object.meshCount o) ->
  forall p, cursor_after_meshes p (g <$> objs) = cursor_after_meshes p objs.
Proof.
  intros Hg. unfold cursor_after_meshes.
  induction objs as [|o objs IH]; intros p; [done|].
  cbn [fmap list_fmap foldl]. destruct (Hg o) as [-> ->]. apply IH.
Qed.

Lemma cursor_after_meshes_again (objs : list Object.t) (p : Z) :
  cursor_after_meshes (cursor_after_meshes p objs) objs
    = cursor_after_meshes p objs.
Proof.
  unfold cursor_after_meshes. destruct objs as [|o objs]; [done|].
  cbn [foldl]. generalize (Object.mshOffs o + 80 * Z.max 0 (Object.meshCount o)).
  clear o. intros c. revert c.
  induction objs as [|o objs IH]; intros c; [done|]. cbn [foldl]. apply IH.
Qed.

Lemma forallb_fmap_ext {A} (P : A -> bool) (g : A -> A) (l : list A) :
  (forall x, P (g x) = P x) -> forallb P (g <$> l) = forallb P l.
Proof.
  intros Hg. induction l as [|x l IH]; [done|].
  cbn [fmap list_fmap forallb]. by rewrite Hg, <- IH.
Qed.

(** X15. Unlike [ParseObjects], [ParseMeshes] can be run again: it replaces
    each object's mesh list instead of appending to it, so a second run
    returns what the first returned and leaves the cursor where the first
    left it. *)
Theorem ParseMeshes_twice (model self : Model.t) (f : File) (p : Z) :
  (let! m1 := Model_ParseMeshes (Some model) self in
   Model_ParseMeshes (Some model) m1) f p
    = Model_ParseMeshes (Some model) self f p.
Proof.
  unfold bind at 1.
  destruct (Model_ParseMeshes (Some model) self f p) as [e|[m1 q]] eqn:E;
    [done|].
  unfold Model_ParseMeshes, bind in E.
  destruct (forallb (meshes_in_bounds f) (Model.objects self)) eqn:Hall.
  - rewrite for_each_ParseMeshes_ok in E by done.
    unfold ret in E. simplify_eq.
    unfold Model_ParseMeshes, bind, ret. cbn [Model.objects set_objects].
    assert (Hagain : forallb (meshes_in_bounds f)
              ((fun o => set_meshes o (meshes_at model f o))
                 <$> Model.objects self) = true).
    { by rewrite forallb_fmap_ext. }
    rewrite (for_each_ParseMeshes_ok _ _ _ _ Hagain).
    rewrite cursor_after_meshes_fmap by done.
    rewrite cursor_after_meshes_again.
    rewrite <- list_fmap_compose. do 2 f_equal.
  - destruct (for_each_ParseMeshes_fails model f _ p Hall) as (e & He & _).
    by rewrite He in E.
Qed.
